(** * ITOM interactive mind map: the selection controller of [src/App.tsx]

    [App.tsx] holds two near-identical variants of one component:
    - the responsive variant (first half of the file), whose partner
      matching searches [Object.keys(summaries)] for a key whose
      comma-split parts contain both names, and which filters the
      category tabs ([availableTabs]);
    - the fixed-size variant (second half), whose partner matching looks
      up the key [[prev[0], item].sort().join(',')], and which always
      shows every category tab.

    Both are embedded below, each in its own module, as pure functions
    over an explicit application state.  The table [summaries] is imported
    by the source from a module that is not part of the sources at hand;
    it is a parameter of every definition that reads it.

    Strings are [string]s; a character stands for one code unit, and the
    order of [String.compare] for the order JavaScript sorts by. *)

From Stdlib Require Import String Ascii List Bool Arith Lia.
Import ListNotations.
Local Open Scope string_scope.
Local Open Scope list_scope.

(** ** The JavaScript primitives the component uses *)

Module JS.

(** [arr.includes(x)] on an array of strings. *)
Definition includes (x : string) (arr : list string) : bool :=
  existsb (String.eqb x) arr.

(** [s.split(sep)] for a one-character separator: the pieces between
    the separators, in order; the empty string splits into one empty
    piece. *)
Fixpoint split (sep : ascii) (s : string) : list string :=
  match s with
  | EmptyString => [EmptyString]
  | String c rest =>
      if Ascii.eqb c sep then EmptyString :: split sep rest
      else match split sep rest with
           | piece :: pieces => String c piece :: pieces
           | [] => [String c EmptyString]
           end
  end.

(** [arr.join(sep)]. *)
Definition join (sep : string) (arr : list string) : string :=
  String.concat sep arr.

(** [arr.sort()] with the default comparator: ascending order of the
    strings' code units. *)
Fixpoint insert (x : string) (sorted : list string) : list string :=
  match sorted with
  | [] => [x]
  | y :: rest => if String.leb x y then x :: sorted else y :: insert x rest
  end.

Definition sort (arr : list string) : list string :=
  fold_right insert [] arr.

(** Truthiness of a string: every string but the empty one. *)
Definition truthy (s : string) : bool := negb (String.eqb s EmptyString).

(** A plain object with string values, kept as its own properties in
    the order [Object.keys] enumerates them. *)
Definition object : Type := list (string * string).

Definition keys (o : object) : list string := map fst o.

(** [o[k]]: [None] stands for [undefined]. *)
Fixpoint get (o : object) (k : string) : option string :=
  match o with
  | [] => None
  | (k', v) :: rest => if String.eqb k k' then Some v else get rest k
  end.

End JS.

Definition comma : ascii := ","%char.

(** ** Data model *)

(** [interface MindMapNode { name: string; children?: string[] }];
    [D3Node] carries the same two fields (plus the positions the
    simulation writes, which no decision reads). *)
Record MindMapNode : Type := mkNode {
  name : string;
  children : option (list string)
}.

Definition D3Node : Type := MindMapNode.

(** [interface MindMapData { name: string; children: MindMapNode[] }]. *)
Record MindMapData : Type := mkData {
  data_name : string;
  data_children : list MindMapNode
}.

Definition category (n : string) (leaves : list string) : MindMapNode :=
  {| name := n; children := Some leaves |}.

Definition mindmapData : MindMapData :=
  {| data_name := "ITOM Market";
     data_children :=
       [ category "Technologies"
           ["Cloud Management"; "AIOps"; "Automation"; "Network Monitoring";
            "APM"; "ITSM"; "Infrastructure Monitoring"; "Log Analytics"];
         category "Market Trends"
           ["Digital Transformation"; "Multi-Cloud Adoption"; "Edge Computing";
            "DevOps Integration"; "Containerization"; "Cybersecurity"];
         category "Key Players"
           ["ServiceNow"; "BMC"; "IBM"; "Splunk"; "Datadog"; "Dynatrace";
            "New Relic"; "Microsoft"];
         category "Challenges"
           ["Skill Gap"; "Integration Complexity"; "Data Privacy";
            "Legacy Systems"];
         category "Benefits"
           ["Efficiency"; "Cost Reduction"; "User Experience";
            "Fast Resolution"; "Proactive Prevention"];
         category "Industry Verticals"
           ["Finance"; "Healthcare"; "Retail"; "Manufacturing"; "Telecom";
            "Government"];
         category "Future Outlook"
           ["Predictive Analytics"; "Autonomous Ops"] ] |}.

(** [node.children!]: the non-null assertion.  Every node the component
    applies it to is a category of [mindmapData], whose [children] are
    present; the theorems below only use it on such nodes. *)
Definition children_bang (node : MindMapNode) : list string :=
  match children node with
  | Some leaves => leaves
  | None => []
  end.

(** The three [useState] cells of [ITOMInteractiveMindMap]. *)
Record AppState : Type := mkState {
  selectedItems : list string;
  summary : string;
  activeTab : nat
}.

(** [useState([])], [useState('')], [useState(0)]. *)
Definition initialState : AppState :=
  {| selectedItems := []; summary := EmptyString; activeTab := 0 |}.

(** ** The responsive variant (first half of [App.tsx]) *)

Module Responsive.
Section WithSummaries.

Variable summaries : JS.object.

(** [ForceGraph]'s [availableNodes] memo. *)
Definition availableNodes (data : MindMapNode) (selectedItems : list string)
  : list string :=
  if (List.length selectedItems =? 0)%nat then children_bang data
  else if (List.length selectedItems =? 1)%nat then
    let selected0 := nth 0 selectedItems EmptyString in
    filter
      (fun item =>
         negb (String.eqb item selected0)
         && JS.includes item (children_bang data))
      (flat_map (JS.split comma)
         (filter
            (fun key =>
               existsb (fun item => String.eqb item selected0)
                 (JS.split comma key))
            (JS.keys summaries)))
  else [].

(** The [nodes] array of [ForceGraph]'s drawing effect: the hub first,
    then one child-less node per available leaf. *)
Definition nodes (data : MindMapNode) (selectedItems : list string)
  : list D3Node :=
  data :: map (fun child => {| name := child; children := None |})
            (availableNodes data selectedItems).

(** [ITOMInteractiveMindMap]'s [availableTabs] memo. *)
Definition availableTabs (selectedItems : list string) : list MindMapNode :=
  if (List.length selectedItems =? 0)%nat then data_children mindmapData
  else if (List.length selectedItems =? 1)%nat then
    let selected0 := nth 0 selectedItems EmptyString in
    let availableItems :=
      filter (fun item => negb (String.eqb item selected0))
        (flat_map (JS.split comma)
           (filter
              (fun key =>
                 existsb (fun item => String.eqb item selected0)
                   (JS.split comma key))
              (JS.keys summaries))) in
    filter
      (fun category =>
         existsb (fun item => JS.includes item availableItems)
           (children_bang category))
      (data_children mindmapData)
  else [].

(** [handleNodeSelect]: the updater given to [setSelectedItems], with
    the [setSummary] calls it makes threaded through as the summary
    cell's successive values (the last call wins; with no call the
    cell keeps its value). *)
Definition handleNodeSelect (item : string) (st : AppState) : AppState :=
  let prev := selectedItems st in
  let '(newSelection, summary1) :=
    if JS.includes item prev then
      (filter (fun i => negb (String.eqb i item)) prev, summary st)
    else if (List.length prev =? 0)%nat then ([item], summary st)
    else if (List.length prev =? 1)%nat then
      let prev0 := nth 0 prev EmptyString in
      match
        find (fun k => JS.includes prev0 (JS.split comma k)
                       && JS.includes item (JS.split comma k))
          (JS.keys summaries)
      with
      | Some key =>
          if JS.truthy key then
            ([prev0; item],
             (* [summaries[key]] of an own key is never [undefined] *)
             match JS.get summaries key with
             | Some text => text
             | None => EmptyString
             end)
          else (prev, summary st)
      | None => (prev, summary st)
      end
    else ([item], summary st) in
  let summary2 :=
    if negb (List.length newSelection =? 2)%nat then EmptyString
    else summary1 in
  {| selectedItems := newSelection;
     summary := summary2;
     activeTab := activeTab st |}.

(** The click handler bound to every circle of the graph:
    [(event, d) => onNodeSelect(d.name)], with [onNodeSelect] the
    [handleNodeSelect] above.  [i] is the position of the clicked
    circle's datum in [nodes]; the graph is on screen only while
    [selectedItems.length < 2]. *)
Definition click (data : MindMapNode) (i : nat) (st : AppState) : AppState :=
  if (List.length (selectedItems st) <? 2)%nat then
    match nth_error (nodes data (selectedItems st)) i with
    | Some d => handleNodeSelect (name d) st
    | None => st
    end
  else st.

End WithSummaries.

Definition handleReset (st : AppState) : AppState :=
  {| selectedItems := []; summary := EmptyString; activeTab := 0 |}.

(** The guard [selectedItems.length < 2 && (...)] around the tab group
    and its graphs in the rendered markup. *)
Definition graphShown (st : AppState) : bool :=
  (List.length (selectedItems st) <? 2)%nat.

End Responsive.

(** ** The fixed-size variant (second half of [App.tsx]) *)

Module Fixed.
Section WithSummaries.

Variable summaries : JS.object.

Definition availableNodes (data : MindMapNode) (selectedItems : list string)
  : list string :=
  if (List.length selectedItems =? 0)%nat then children_bang data
  else if (List.length selectedItems =? 1)%nat then
    let selected0 := nth 0 selectedItems EmptyString in
    filter
      (fun item =>
         negb (String.eqb item selected0)
         && JS.includes item (children_bang data))
      (flat_map (JS.split comma)
         (filter
            (fun key => JS.includes selected0 (JS.split comma key))
            (JS.keys summaries)))
  else [].

Definition nodes (data : MindMapNode) (selectedItems : list string)
  : list D3Node :=
  data :: map (fun child => {| name := child; children := None |})
            (availableNodes data selectedItems).

(** This variant has no [availableTabs]: the tab list is
    [mindmapData.children] whatever the selection. *)
Definition tabs (selectedItems : list string) : list MindMapNode :=
  data_children mindmapData.

(** [handleNodeSelect]; the looked-up key always holds a comma, so the
    lookup never reaches a property inherited from [Object.prototype]. *)
Definition handleNodeSelect (item : string) (st : AppState) : AppState :=
  let prev := selectedItems st in
  let '(newSelection, summary1) :=
    if JS.includes item prev then
      (filter (fun i => negb (String.eqb i item)) prev, summary st)
    else if (List.length prev =? 0)%nat then ([item], summary st)
    else if (List.length prev =? 1)%nat then
      let prev0 := nth 0 prev EmptyString in
      let key := JS.join "," (JS.sort [prev0; item]) in
      match JS.get summaries key with
      | Some text =>
          if JS.truthy text then ([prev0; item], text)
          else (prev, summary st)
      | None => (prev, summary st)
      end
    else ([item], summary st) in
  let summary2 :=
    if negb (List.length newSelection =? 2)%nat then EmptyString
    else summary1 in
  {| selectedItems := newSelection;
     summary := summary2;
     activeTab := activeTab st |}.

(** The click handler of the circles; this variant draws the graph in
    every state. *)
Definition click (data : MindMapNode) (i : nat) (st : AppState) : AppState :=
  match nth_error (nodes data (selectedItems st)) i with
  | Some d => handleNodeSelect (name d) st
  | None => st
  end.

End WithSummaries.

Definition handleReset (st : AppState) : AppState :=
  {| selectedItems := []; summary := EmptyString; activeTab := 0 |}.

End Fixed.

(** ** Runs of the controller *)

(** The user events that change the selection. *)
Inductive Event : Type :=
| SelectItem (item : string)
| ResetSelection.

(** The state after each of a sequence of [selectItem] calls, the start
    state included. *)
Fixpoint trace (select : string -> AppState -> AppState)
  (items : list string) (st : AppState) : list AppState :=
  st :: match items with
        | [] => []
        | item :: rest => trace select rest (select item st)
        end.

(** The state at the end of a sequence of [selectItem] calls. *)
Definition run (select : string -> AppState -> AppState)
  (items : list string) (st : AppState) : AppState :=
  fold_left (fun s item => select item s) items st.

Definition dispatch (select : string -> AppState -> AppState)
  (reset : AppState -> AppState) (e : Event) (st : AppState) : AppState :=
  match e with
  | SelectItem item => select item st
  | ResetSelection => reset st
  end.

Definition runEvents (select : string -> AppState -> AppState)
  (reset : AppState -> AppState) (events : list Event) (st : AppState)
  : AppState :=
  fold_left (fun s e => dispatch select reset e s) events st.

(** ** The pairing table as the specification describes it *)

(** The canonical key of the unordered pair [{a, b}]: the two names
    sorted and joined with a comma. *)
Definition pair_key (a b : string) : string :=
  JS.join "," (JS.sort [a; b]).

(** A key is canonical when it splits at its commas into exactly two
    names, the first strictly below the second. *)
Definition canonical_key (k : string) : bool :=
  match JS.split comma k with
  | [x; y] => String.ltb x y
  | _ => false
  end.

Definition canonical_keys (summaries : JS.object) : bool :=
  forallb canonical_key (JS.keys summaries).

(** Every summary of the table is a non-empty text. *)
Definition nonempty_summaries (summaries : JS.object) : bool :=
  forallb (fun entry => JS.truthy (snd entry)) summaries.

(** [x] is a partner of [a]: the table has an entry for the pair. *)
Definition partner (summaries : JS.object) (a x : string) : bool :=
  JS.includes (pair_key a x) (JS.keys summaries).

(** The derived view [eligibleCategories] in the specification's words:
    every category for the empty selection; for a selection [[a]], the
    categories holding at least one partner of [a]; none for two
    entries. *)
Definition eligibleCategories_spec (summaries : JS.object)
  (selection : list string) : list MindMapNode :=
  match selection with
  | [] => data_children mindmapData
  | [a] =>
      filter (fun c => existsb (partner summaries a) (children_bang c))
        (data_children mindmapData)
  | _ => []
  end.

(** A sample table: the entry of the specification's worked example and
    two more. *)
Definition example_summaries : JS.object :=
  [("AIOps,ServiceNow", "text");
   ("APM,Dynatrace", "text on APM and Dynatrace");
   ("AIOps,Efficiency", "text on AIOps and Efficiency")].

(** Two of the categories of [mindmapData]. *)
Definition technologies : MindMapNode :=
  nth 0 (data_children mindmapData) (mkNode EmptyString None).

Definition keyPlayers : MindMapNode :=
  nth 2 (data_children mindmapData) (mkNode EmptyString None).

(** A table whose only entry carries the empty text. *)
Definition blank_summaries : JS.object :=
  [("AIOps,ServiceNow", EmptyString)].

(** ** The shape the two variants of [handleNodeSelect] share

    [accept prev0 item] is the partner test of the one-item branch: the
    summary to show when the pair is accepted, [None] when it is
    rejected. *)
Definition select_with (accept : string -> string -> option string)
  (item : string) (st : AppState) : AppState :=
  let prev := selectedItems st in
  let '(newSelection, summary1) :=
    if JS.includes item prev then
      (filter (fun i => negb (String.eqb i item)) prev, summary st)
    else
      match prev with
      | [] => ([item], summary st)
      | [prev0] =>
          match accept prev0 item with
          | Some text => ([prev0; item], text)
          | None => (prev, summary st)
          end
      | _ => ([item], summary st)
      end in
  {| selectedItems := newSelection;
     summary := if negb (List.length newSelection =? 2)%nat then EmptyString
                else summary1;
     activeTab := activeTab st |}.

(** The partner test of the responsive variant: the first key whose
    parts hold both names. *)
Definition accept_by_search (summaries : JS.object) (prev0 item : string)
  : option string :=
  match
    find (fun k => JS.includes prev0 (JS.split comma k)
                   && JS.includes item (JS.split comma k))
      (JS.keys summaries)
  with
  | Some key =>
      if JS.truthy key then
        Some (match JS.get summaries key with
              | Some text => text
              | None => EmptyString
              end)
      else None
  | None => None
  end.

(** The partner test of the fixed-size variant: the canonical key. *)
Definition accept_by_key (summaries : JS.object) (prev0 item : string)
  : option string :=
  match JS.get summaries (pair_key prev0 item) with
  | Some text => if JS.truthy text then Some text else None
  | None => None
  end.

(** A state is coherent with the table when its selection has at most
    two entries and its summary, if not empty, is the table's entry for
    the two selected names. *)
Definition coherent (summaries : JS.object) (st : AppState) : Prop :=
  List.length (selectedItems st) <= 2
  /\ (summary st <> EmptyString ->
      exists a b, selectedItems st = [a; b]
                  /\ JS.get summaries (pair_key a b) = Some (summary st)).

(** ** What the component draws *)

(** The [fill] callback of the circles, the same in both variants: the
    hub colour for a node with [children] (an array, even an empty one,
    is truthy), the selected colour for a leaf whose name is selected,
    the plain colour for any other leaf. *)
Definition circleFill (selectedItems : list string) (d : D3Node) : string :=
  match children d with
  | Some _ => "#69b3a2"
  | None =>
      if JS.includes (name d) selectedItems then "#e74c3c" else "#3498db"
  end.

(** [interface D3Link]; [None] stands for [undefined]. *)
Record D3Link : Type := mkLink {
  source : option D3Node;
  target : option D3Node
}.

(** The [links] array of the drawing effect, the same in both variants:
    one link per available leaf, from [nodes[0]] to the first node of
    that name. *)
Definition links (nodes : list D3Node) (availableNodes : list string)
  : list D3Link :=
  map (fun child =>
         {| source := nth_error nodes 0;
            target := find (fun n => String.eqb (name n) child) nodes |})
    availableNodes.

(** The guard [summary && (...)] around the summary panel, the same in
    both variants. *)
Definition summaryShown (st : AppState) : bool := JS.truthy (summary st).

(** [s] holds the character [sep]. *)
Fixpoint contains_char (sep : ascii) (s : string) : bool :=
  match s with
  | EmptyString => false
  | String c rest => Ascii.eqb c sep || contains_char sep rest
  end.

Definition has_comma (s : string) : bool := contains_char comma s.

(** A state is settled for a partner test when its selection lists no
    name twice and its summary is the one the selection calls for:
    empty under fewer than two names, the accepted text under two. *)
Definition settled (accept : string -> string -> option string)
  (st : AppState) : Prop :=
  NoDup (selectedItems st)
  /\ match selectedItems st with
     | [] | [_] => summary st = EmptyString
     | [a; b] => accept a b = Some (summary st)
     | _ => False
     end.

(** * Properties *)

(** ** Strings, [split], [join] and [sort] *)

Lemma ltb_irrefl (s : string) : String.ltb s s = false.
Proof.
  unfold String.ltb. pose proof (String.compare_antisym s s) as H.
  destruct (String.compare s s); simpl in H; congruence.
Qed.

Lemma ltb_leb (s t : string) : String.ltb s t = true -> String.leb s t = true.
Proof.
  unfold String.ltb, String.leb. destruct (String.compare s t); congruence.
Qed.

Lemma ltb_not_leb (s t : string) :
  String.ltb s t = true -> String.leb t s = false.
Proof.
  unfold String.ltb, String.leb. rewrite (String.compare_antisym t s).
  destruct (String.compare s t); simpl; congruence.
Qed.

Lemma ltb_neq (s t : string) : String.ltb s t = true -> s <> t.
Proof.
  intros H ->. rewrite ltb_irrefl in H. discriminate.
Qed.

Lemma includes_In (x : string) (arr : list string) :
  JS.includes x arr = true <-> In x arr.
Proof.
  unfold JS.includes. rewrite existsb_exists. split.
  - intros (y & Hy & E). apply String.eqb_eq in E. now subst.
  - intros H. exists x. split; [assumption | apply String.eqb_refl].
Qed.

Lemma split_not_nil (sep : ascii) (s : string) : JS.split sep s <> [].
Proof.
  destruct s as [|c rest]; simpl; [discriminate|].
  destruct (Ascii.eqb c sep); [discriminate|].
  destruct (JS.split sep rest); discriminate.
Qed.

Lemma split_append (sep : ascii) (u v : string) :
  JS.split sep (u ++ String sep v) = (JS.split sep u ++ JS.split sep v)%list.
Proof.
  induction u as [|c rest IH]; simpl.
  - now rewrite Ascii.eqb_refl.
  - destruct (Ascii.eqb c sep); [now rewrite IH|].
    rewrite IH. destruct (JS.split sep rest) as [|piece pieces] eqn:E.
    + now apply split_not_nil in E.
    + reflexivity.
Qed.

Lemma join_split (sep : ascii) (s : string) :
  JS.join (String sep EmptyString) (JS.split sep s) = s.
Proof.
  unfold JS.join. induction s as [|c rest IH]; simpl; [reflexivity|].
  destruct (Ascii.eqb c sep) eqn:E.
  - apply Ascii.eqb_eq in E. subst c.
    destruct (JS.split sep rest) as [|piece pieces] eqn:S.
    + now apply split_not_nil in S.
    + simpl. simpl in IH. now rewrite IH.
  - destruct (JS.split sep rest) as [|piece pieces] eqn:S.
    + now apply split_not_nil in S.
    + destruct pieces; simpl in *; now rewrite IH.
Qed.

Lemma split_single (sep : ascii) (s w : string) :
  JS.split sep s = [w] -> s = w.
Proof.
  intros H. rewrite <- (join_split sep s), H. reflexivity.
Qed.

Lemma split_pair_inv (sep : ascii) (u v p q : string) :
  JS.split sep (u ++ String sep v) = [p; q] -> u = p /\ v = q.
Proof.
  rewrite split_append. intros H.
  destruct (JS.split sep u) as [|u1 us] eqn:Eu; [now apply split_not_nil in Eu|].
  destruct (JS.split sep v) as [|v1 vs] eqn:Ev; [now apply split_not_nil in Ev|].
  destruct us as [|u2 us].
  - simpl in H. destruct vs; [|discriminate].
    injection H as -> ->. split; eapply split_single; eassumption.
  - simpl in H. destruct us; simpl in H; discriminate.
Qed.

Lemma pair_key_eq (a b : string) :
  pair_key a b = if String.leb a b then (a ++ "," ++ b)%string
                 else (b ++ "," ++ a)%string.
Proof.
  unfold pair_key, JS.join, JS.sort. simpl.
  destruct (String.leb a b); reflexivity.
Qed.

Lemma pair_key_truthy (a b : string) : JS.truthy (pair_key a b) = true.
Proof.
  rewrite pair_key_eq.
  destruct (String.leb a b); [destruct a | destruct b]; reflexivity.
Qed.

Lemma pair_key_split (a x p q : string) :
  JS.split comma (pair_key a x) = [p; q] ->
  (a = p /\ x = q) \/ (a = q /\ x = p).
Proof.
  rewrite pair_key_eq. destruct (String.leb a x); intros H;
    apply (split_pair_inv comma) in H; tauto.
Qed.

Lemma canonical_key_parts (k : string) :
  canonical_key k = true ->
  exists p q, JS.split comma k = [p; q] /\ String.ltb p q = true
              /\ k = (p ++ "," ++ q)%string.
Proof.
  unfold canonical_key. intros H.
  destruct (JS.split comma k) as [|p [|q [|r rest]]] eqn:E; try discriminate.
  exists p, q. repeat split; try assumption.
  rewrite <- (join_split comma k), E. reflexivity.
Qed.

Lemma pair_key_sorted (p q : string) :
  String.ltb p q = true ->
  pair_key p q = (p ++ "," ++ q)%string /\ pair_key q p = (p ++ "," ++ q)%string.
Proof.
  intros Hlt. rewrite !pair_key_eq.
  now rewrite (ltb_leb _ _ Hlt), (ltb_not_leb _ _ Hlt).
Qed.

(** On a canonical key, "both names are among the parts" is "the key is
    the pair's canonical key". *)
Lemma canonical_key_match (k a x : string) :
  canonical_key k = true -> a <> x ->
  JS.includes a (JS.split comma k) && JS.includes x (JS.split comma k)
  = String.eqb k (pair_key a x).
Proof.
  intros Hk Hax.
  destruct (canonical_key_parts k Hk) as (p & q & Hsplit & Hlt & Hkeq).
  destruct (pair_key_sorted p q Hlt) as [Kpq Kqp].
  destruct (String.eqb_spec k (pair_key a x)) as [E|E].
  - rewrite E in Hsplit. rewrite E at 1 2.
    destruct (pair_key_split _ _ _ _ Hsplit) as [[-> ->]|[-> ->]];
      rewrite Hsplit; unfold JS.includes; simpl;
      rewrite !String.eqb_refl, ?orb_true_r; reflexivity.
  - rewrite Hsplit. unfold JS.includes. simpl. rewrite !orb_false_r.
    destruct (String.eqb_spec a p) as [Eap|Hap];
      destruct (String.eqb_spec x q) as [Exq|Hxq];
      destruct (String.eqb_spec a q) as [Eaq|Haq];
      destruct (String.eqb_spec x p) as [Exp|Hxp];
      simpl; try reflexivity; try congruence; exfalso; apply E; rewrite Hkeq;
      first [ rewrite Eap, Exq; now symmetry
            | rewrite Eaq, Exp; now symmetry ].
Qed.

(** No canonical key pairs a name with itself. *)
Lemma canonical_key_distinct (a x : string) :
  canonical_key (pair_key a x) = true -> a <> x.
Proof.
  intros Hk ->.
  destruct (canonical_key_parts _ Hk) as (p & q & Hsplit & Hlt & _).
  destruct (pair_key_split _ _ _ _ Hsplit) as [[E1 E2]|[E1 E2]];
    apply ltb_neq in Hlt; congruence.
Qed.

(** ** Objects *)

Lemma get_includes (o : JS.object) (k : string) :
  JS.includes k (JS.keys o)
  = match JS.get o k with Some _ => true | None => false end.
Proof.
  unfold JS.includes, JS.keys.
  induction o as [|[k' v] rest IH]; simpl; [reflexivity|].
  destruct (String.eqb k k'); simpl; [reflexivity | exact IH].
Qed.

Lemma get_truthy (o : JS.object) (k text : string) :
  nonempty_summaries o = true -> JS.get o k = Some text ->
  JS.truthy text = true.
Proof.
  unfold nonempty_summaries.
  induction o as [|[k' v] rest IH]; simpl; [discriminate|].
  intros H. apply andb_prop in H as [Hv Hrest].
  destruct (String.eqb k k'); [|now apply IH].
  intros E. injection E as <-. exact Hv.
Qed.

(** The key a search over [Object.keys] returns has a value. *)
Lemma found_key_has_value (o : JS.object) (test : string -> bool)
  (key : string) :
  find test (JS.keys o) = Some key -> exists text, JS.get o key = Some text.
Proof.
  intros F. apply find_some in F as [Hin _].
  apply includes_In in Hin. rewrite get_includes in Hin.
  destruct (JS.get o key) as [text|]; [eauto | discriminate].
Qed.

Lemma canonical_keys_In (o : JS.object) (k : string) :
  canonical_keys o = true -> JS.includes k (JS.keys o) = true ->
  canonical_key k = true.
Proof.
  unfold canonical_keys. rewrite forallb_forall, includes_In. auto.
Qed.

Lemma find_canonical (ks : list string) (a x : string) :
  forallb canonical_key ks = true -> a <> x ->
  find (fun k => JS.includes a (JS.split comma k)
                 && JS.includes x (JS.split comma k)) ks
  = if JS.includes (pair_key a x) ks then Some (pair_key a x) else None.
Proof.
  intros Hks Hax. induction ks as [|k rest IH]; simpl; [reflexivity|].
  simpl in Hks. apply andb_prop in Hks as [Hk Hrest].
  rewrite (canonical_key_match k a x Hk Hax), (String.eqb_sym (pair_key a x) k).
  destruct (String.eqb_spec k (pair_key a x)) as [-> |_]; simpl;
    [reflexivity | now apply IH].
Qed.

(** ** The two partner tests *)

(** On a table with canonical keys the search of the responsive variant
    finds the pair's canonical key, if any. *)
Lemma accept_by_search_get (summaries : JS.object) (a x : string) :
  canonical_keys summaries = true -> a <> x ->
  accept_by_search summaries a x = JS.get summaries (pair_key a x).
Proof.
  intros Hks Hax. unfold accept_by_search.
  rewrite (find_canonical _ a x Hks Hax), get_includes.
  destruct (JS.get summaries (pair_key a x)) as [text|] eqn:E;
    [|reflexivity].
  now rewrite pair_key_truthy, E.
Qed.

(** On a table without blank summaries the lookup of the fixed-size
    variant accepts every entry. *)
Lemma accept_by_key_get (summaries : JS.object) (a x : string) :
  nonempty_summaries summaries = true ->
  accept_by_key summaries a x = JS.get summaries (pair_key a x).
Proof.
  intros Hne. unfold accept_by_key.
  destruct (JS.get summaries (pair_key a x)) as [text|] eqn:E;
    [|reflexivity].
  now rewrite (get_truthy _ _ _ Hne E).
Qed.

(** ** Each variant is an instance of the shared shape *)

Lemma Responsive_select_with (summaries : JS.object) (item : string)
  (st : AppState) :
  Responsive.handleNodeSelect summaries item st
  = select_with (accept_by_search summaries) item st.
Proof.
  unfold Responsive.handleNodeSelect, select_with, accept_by_search.
  destruct st as [prev sm tab]; simpl.
  destruct (JS.includes item prev); [reflexivity|].
  destruct prev as [|p [|q rest]]; simpl; try reflexivity.
  destruct (find _ _) as [key|]; [|reflexivity].
  destruct (JS.truthy key); reflexivity.
Qed.

Lemma Fixed_select_with (summaries : JS.object) (item : string)
  (st : AppState) :
  Fixed.handleNodeSelect summaries item st
  = select_with (accept_by_key summaries) item st.
Proof.
  unfold Fixed.handleNodeSelect, select_with, accept_by_key, pair_key.
  destruct st as [prev sm tab]; simpl.
  destruct (JS.includes item prev); [reflexivity|].
  destruct prev as [|p [|q rest]]; simpl; try reflexivity.
  destruct (JS.get _ _) as [text|]; [|reflexivity].
  destruct (JS.truthy text); reflexivity.
Qed.

(** ** One step of the shared shape *)

Section SelectWith.

Variable accept : string -> string -> option string.

Lemma select_with_empty (a sm : string) (tab : nat) :
  select_with accept a (mkState [] sm tab) = mkState [a] EmptyString tab.
Proof. reflexivity. Qed.

Lemma select_with_same (a sm : string) (tab : nat) :
  select_with accept a (mkState [a] sm tab) = mkState [] EmptyString tab.
Proof.
  unfold select_with, JS.includes. simpl.
  rewrite !String.eqb_refl. reflexivity.
Qed.

Lemma select_with_one (a x sm : string) (tab : nat) :
  a <> x ->
  select_with accept x (mkState [a] sm tab)
  = match accept a x with
    | Some text => mkState [a; x] text tab
    | None => mkState [a] EmptyString tab
    end.
Proof.
  intros Hax. unfold select_with, JS.includes. simpl.
  replace (String.eqb x a) with false
    by (symmetry; apply String.eqb_neq; congruence).
  simpl. destruct (accept a x); reflexivity.
Qed.

Lemma select_with_first_of_two (a b sm : string) (tab : nat) :
  a <> b ->
  select_with accept a (mkState [a; b] sm tab) = mkState [b] EmptyString tab.
Proof.
  intros Hab. unfold select_with, JS.includes. simpl.
  rewrite !String.eqb_refl. simpl.
  replace (String.eqb b a) with false
    by (symmetry; apply String.eqb_neq; congruence).
  reflexivity.
Qed.

Lemma filter_out_length (item : string) (arr : list string) :
  List.length (filter (fun i => negb (String.eqb i item)) arr)
  <= List.length arr.
Proof. apply filter_length_le. Qed.

Lemma filter_out_shrinks (item : string) (arr : list string) :
  JS.includes item arr = true ->
  List.length (filter (fun i => negb (String.eqb i item)) arr)
  < List.length arr.
Proof.
  unfold JS.includes.
  induction arr as [|y rest IH]; simpl; [discriminate|].
  rewrite (String.eqb_sym item y).
  destruct (String.eqb y item); simpl.
  - intros _. pose proof (filter_out_length item rest). lia.
  - intros H. apply IH in H. lia.
Qed.

(** The selection never grows past two entries. *)
Lemma select_with_bound (item : string) (st : AppState) :
  List.length (selectedItems st) <= 2 ->
  List.length (selectedItems (select_with accept item st)) <= 2.
Proof.
  destruct st as [prev sm tab]. unfold select_with. simpl. intros Hlen.
  destruct (JS.includes item prev).
  - simpl. pose proof (filter_out_length item prev). lia.
  - destruct prev as [|p [|q rest]]; simpl; try lia.
    destruct (accept p item); simpl; lia.
Qed.

Lemma trace_bound (items : list string) (st : AppState) :
  List.length (selectedItems st) <= 2 ->
  Forall (fun s => List.length (selectedItems s) <= 2)
    (trace (select_with accept) items st).
Proof.
  revert st. induction items as [|item rest IH]; intros st Hlen; simpl.
  - constructor; [assumption | constructor].
  - constructor; [assumption|]. apply IH. now apply select_with_bound.
Qed.

End SelectWith.

Lemma trace_ext (f g : string -> AppState -> AppState) :
  (forall item st, f item st = g item st) ->
  forall items st, trace f items st = trace g items st.
Proof.
  intros Hfg items. induction items as [|item rest IH]; intros st; simpl;
    [reflexivity|].
  now rewrite Hfg, IH.
Qed.

Lemma pair_key_comm (a b : string) : pair_key a b = pair_key b a.
Proof.
  rewrite !pair_key_eq.
  destruct (String.leb a b) eqn:E1, (String.leb b a) eqn:E2;
    try reflexivity.
  - now rewrite (String.leb_antisym _ _ E1 E2).
  - destruct (String.leb_total a b); congruence.
Qed.

(** A key that holds both names makes the search of the responsive
    variant succeed, whatever the other keys are. *)
Lemma accept_by_search_found (summaries : JS.object) (k a x : string) :
  In k (JS.keys summaries) -> a <> x ->
  JS.includes a (JS.split comma k) && JS.includes x (JS.split comma k) = true ->
  exists text, accept_by_search summaries a x = Some text.
Proof.
  intros Hin Hax Hk. unfold accept_by_search.
  destruct (find _ _) as [key|] eqn:F.
  - apply find_some in F as [_ Hkey].
    assert (JS.truthy key = true) as ->; [|eauto].
    destruct key; [|reflexivity]. exfalso. apply Hax.
    apply andb_prop in Hkey as [Ha Hx].
    apply includes_In in Ha, Hx. simpl in Ha, Hx.
    destruct Ha as [<-|[]], Hx as [<-|[]]. reflexivity.
  - apply find_none with (x := k) in F; [congruence | assumption].
Qed.

Lemma select_with_ext (acc1 acc2 : string -> string -> option string) :
  (forall a x, a <> x -> acc1 a x = acc2 a x) ->
  forall item st, select_with acc1 item st = select_with acc2 item st.
Proof.
  intros Hacc item [prev sm tab]. unfold select_with. simpl.
  destruct (JS.includes item prev) eqn:Hinc; [reflexivity|].
  destruct prev as [|p [|q rest]]; try reflexivity.
  rewrite Hacc; [reflexivity|].
  intros ->. unfold JS.includes in Hinc. simpl in Hinc.
  now rewrite String.eqb_refl in Hinc.
Qed.

(** ** The summary shown is the entry of the selected pair *)

Section SummaryInvariant.

Variable summaries : JS.object.
Variable accept : string -> string -> option string.
Hypothesis accept_entry :
  forall a x text, a <> x -> accept a x = Some text ->
                   JS.get summaries (pair_key a x) = Some text.

Lemma coherent_blank (sel : list string) (tab : nat) :
  List.length sel <= 1 -> coherent summaries (mkState sel EmptyString tab).
Proof.
  intros Hlen. split; simpl; [lia | congruence].
Qed.

Lemma select_with_coherent (item : string) (st : AppState) :
  coherent summaries st -> coherent summaries (select_with accept item st).
Proof.
  destruct st as [prev sm tab]. intros [Hlen Hsum]. simpl in Hlen, Hsum.
  unfold select_with. simpl.
  destruct (JS.includes item prev) eqn:Hinc.
  - pose proof (filter_out_shrinks item prev Hinc) as Hlt.
    remember (filter _ prev) as rest eqn:Hrest.
    destruct rest as [|r1 [|r2 rest]]; simpl in *;
      try (apply coherent_blank; simpl; lia).
    lia.
  - destruct prev as [|p [|q rest]]; simpl;
      try (apply coherent_blank; simpl; lia).
    destruct (accept p item) as [text|] eqn:Hacc;
      [|apply coherent_blank; simpl; lia].
    split; simpl; [lia|]. intros _. exists p, item. split; [reflexivity|].
    apply accept_entry; [|assumption].
    intros ->. unfold JS.includes in Hinc. simpl in Hinc.
    now rewrite String.eqb_refl in Hinc.
Qed.

Lemma runEvents_coherent (reset : AppState -> AppState)
  (events : list Event) (st : AppState) :
  (forall s, reset s = mkState [] EmptyString 0) ->
  coherent summaries st ->
  coherent summaries (runEvents (select_with accept) reset events st).
Proof.
  intros Hreset. unfold runEvents. revert st.
  induction events as [|e rest IH]; intros st Hst; simpl; [assumption|].
  apply IH. destruct e as [item|]; simpl.
  - now apply select_with_coherent.
  - rewrite Hreset. apply coherent_blank. simpl. lia.
Qed.

End SummaryInvariant.

Lemma runEvents_ext (f g : string -> AppState -> AppState)
  (reset : AppState -> AppState) :
  (forall item st, f item st = g item st) ->
  forall events st, runEvents f reset events st = runEvents g reset events st.
Proof.
  intros Hfg events. unfold runEvents.
  induction events as [|e rest IH]; intros st; simpl; [reflexivity|].
  rewrite IH. destruct e; simpl; [now rewrite Hfg | reflexivity].
Qed.

(** ** The names offered as partners *)

Lemma existsb_pointwise {A : Type} (f g : A -> bool) (l : list A) :
  (forall x, f x = g x) -> existsb f l = existsb g l.
Proof.
  intros Hfg. induction l as [|x rest IH]; simpl; [reflexivity|].
  now rewrite Hfg, IH.
Qed.

Lemma some_is_includes (a : string) (arr : list string) :
  existsb (fun item => String.eqb item a) arr = JS.includes a arr.
Proof.
  unfold JS.includes. apply existsb_pointwise. intros x.
  apply String.eqb_sym.
Qed.

Lemma includes_filter_out (item a : string) (arr : list string) :
  JS.includes item (filter (fun i => negb (String.eqb i a)) arr)
  = negb (String.eqb item a) && JS.includes item arr.
Proof.
  unfold JS.includes. induction arr as [|y rest IH]; simpl.
  - now rewrite andb_false_r.
  - destruct (String.eqb_spec y a) as [-> |Hya]; simpl; rewrite IH.
    + destruct (String.eqb_spec item a); simpl; reflexivity.
    + destruct (String.eqb_spec item y) as [-> |Hiy]; simpl; [|reflexivity].
      apply String.eqb_neq in Hya. now rewrite Hya.
Qed.

Lemma includes_flat_map_split (item : string) (keep : string -> bool)
  (ks : list string) :
  JS.includes item (flat_map (JS.split comma) (filter keep ks))
  = existsb (fun k => keep k && JS.includes item (JS.split comma k)) ks.
Proof.
  unfold JS.includes. induction ks as [|k rest IH]; simpl; [reflexivity|].
  destruct (keep k); simpl; [|exact IH].
  now rewrite existsb_app, IH.
Qed.

Lemma exists_key_canonical (ks : list string) (a x : string) :
  forallb canonical_key ks = true -> a <> x ->
  existsb (fun k => JS.includes a (JS.split comma k)
                    && JS.includes x (JS.split comma k)) ks
  = JS.includes (pair_key a x) ks.
Proof.
  intros Hks Hax. induction ks as [|k rest IH]; simpl; [reflexivity|].
  simpl in Hks. apply andb_prop in Hks as [Hk Hrest].
  rewrite (canonical_key_match k a x Hk Hax), (IH Hrest).
  now rewrite (String.eqb_sym k).
Qed.

(** Over canonical keys, the names the component offers next to a
    selected [a] are exactly the partners of [a]. *)
Lemma partners_listed (summaries : JS.object) (a item : string) :
  canonical_keys summaries = true ->
  JS.includes item
    (filter (fun i => negb (String.eqb i a))
       (flat_map (JS.split comma)
          (filter (fun key => JS.includes a (JS.split comma key))
             (JS.keys summaries))))
  = partner summaries a item.
Proof.
  intros Hks. rewrite includes_filter_out, includes_flat_map_split.
  unfold partner. destruct (String.eqb_spec item a) as [-> |Hia]; simpl.
  - destruct (JS.includes (pair_key a a) (JS.keys summaries)) eqn:E;
      [|reflexivity].
    apply (canonical_keys_In _ _ Hks) in E.
    now apply canonical_key_distinct in E.
  - apply exists_key_canonical; [assumption | congruence].
Qed.

Lemma availableNodes_agree (summaries : JS.object) (data : MindMapNode)
  (selection : list string) :
  Responsive.availableNodes summaries data selection
  = Fixed.availableNodes summaries data selection.
Proof.
  unfold Responsive.availableNodes, Fixed.availableNodes.
  destruct selection as [|a [|b rest]]; simpl; try reflexivity.
  do 2 f_equal. apply filter_ext. intros key. apply some_is_includes.
Qed.

Lemma availableNodes_partner (summaries : JS.object) (data : MindMapNode)
  (a x : string) :
  canonical_keys summaries = true ->
  In x (Fixed.availableNodes summaries data [a]) ->
  partner summaries a x = true /\ In x (children_bang data).
Proof.
  intros Hks. unfold Fixed.availableNodes. simpl. rewrite filter_In.
  intros [Hin Hkeep]. apply andb_prop in Hkeep as [Hxa Hchild].
  split; [|now apply includes_In].
  rewrite <- (partners_listed summaries a x Hks), includes_filter_out, Hxa.
  simpl. now apply includes_In.
Qed.

(** ** The claims *)

Section Claims.

Variable summaries : JS.object.

(** C9.  Selecting an item and selecting it again, from an empty
    selection, gives back the empty selection and the empty summary,
    in both variants. *)
Theorem deselect_restores_empty (a sm : string) (tab : nat) :
  run (Responsive.handleNodeSelect summaries) [a; a] (mkState [] sm tab)
  = mkState [] EmptyString tab
  /\ run (Fixed.handleNodeSelect summaries) [a; a] (mkState [] sm tab)
     = mkState [] EmptyString tab.
Proof.
  unfold run. simpl.
  rewrite !Responsive_select_with, !Fixed_select_with.
  rewrite !select_with_empty, !select_with_same. split; reflexivity.
Qed.

(** C3.  From any state whose selection has at most two entries, the
    selection has at most two entries after every call of a sequence
    of [selectItem] calls with arbitrary arguments, in both variants. *)
Theorem selection_bound (items : list string) (st : AppState) :
  List.length (selectedItems st) <= 2 ->
  Forall (fun s => List.length (selectedItems s) <= 2)
    (trace (Responsive.handleNodeSelect summaries) items st)
  /\ Forall (fun s => List.length (selectedItems s) <= 2)
       (trace (Fixed.handleNodeSelect summaries) items st).
Proof.
  intros Hlen. split.
  - rewrite (trace_ext _ _ (Responsive_select_with summaries)).
    now apply trace_bound.
  - rewrite (trace_ext _ _ (Fixed_select_with summaries)).
    now apply trace_bound.
Qed.

(** C1, as the code has it.  With a non-empty summary under the key
    ["AIOps,ServiceNow"], the calls [selectItem("AIOps")],
    [selectItem("ServiceNow")], [selectItem("AIOps")] from an empty
    selection end with selection [["ServiceNow"]] and an empty summary:
    the third click, on an item already selected, removes that item
    and keeps the other one.  Both variants. *)
Theorem third_click_deselects (text sm : string) (tab : nat) :
  JS.get summaries "AIOps,ServiceNow" = Some text ->
  JS.truthy text = true ->
  run (Responsive.handleNodeSelect summaries)
    ["AIOps"; "ServiceNow"; "AIOps"] (mkState [] sm tab)
  = mkState ["ServiceNow"] EmptyString tab
  /\ run (Fixed.handleNodeSelect summaries)
       ["AIOps"; "ServiceNow"; "AIOps"] (mkState [] sm tab)
     = mkState ["ServiceNow"] EmptyString tab.
Proof.
  intros Hget Htext.
  assert (Hne : "AIOps" <> "ServiceNow") by discriminate.
  unfold run. simpl.
  rewrite !Responsive_select_with, !Fixed_select_with, !select_with_empty.
  rewrite !(select_with_one _ _ _ _ _ Hne). split.
  - destruct (accept_by_search_found summaries "AIOps,ServiceNow"
                "AIOps" "ServiceNow") as [found ->];
      [|assumption|reflexivity|now apply select_with_first_of_two].
    apply includes_In. now rewrite get_includes, Hget.
  - unfold accept_by_key.
    change (pair_key "AIOps" "ServiceNow") with "AIOps,ServiceNow".
    rewrite Hget, Htext. now apply select_with_first_of_two.
Qed.

Section CanonicalTable.

Hypothesis canonical : canonical_keys summaries = true.

Lemma entry_distinct (a b text : string) :
  JS.get summaries (pair_key a b) = Some text -> a <> b.
Proof.
  intros Hget. apply canonical_key_distinct.
  apply (canonical_keys_In summaries); [assumption|].
  now rewrite get_includes, Hget.
Qed.

(** C2, as the code has it.  For a pair with a non-empty entry in a
    table of canonical keys, [selectItem(a); selectItem(b)] from an
    empty selection ends with selection [[a; b]] and
    [selectItem(b); selectItem(a)] with [[b; a]]: the same two
    names in click order, under the same summary.  Both variants. *)
Theorem pairing_symmetric_up_to_order (a b text sm : string) (tab : nat) :
  JS.get summaries (pair_key a b) = Some text ->
  JS.truthy text = true ->
  (run (Responsive.handleNodeSelect summaries) [a; b] (mkState [] sm tab)
   = mkState [a; b] text tab
   /\ run (Responsive.handleNodeSelect summaries) [b; a]
        (mkState [] sm tab)
      = mkState [b; a] text tab)
  /\ (run (Fixed.handleNodeSelect summaries) [a; b] (mkState [] sm tab)
      = mkState [a; b] text tab
      /\ run (Fixed.handleNodeSelect summaries) [b; a] (mkState [] sm tab)
         = mkState [b; a] text tab).
Proof.
  intros Hget Htext. pose proof (entry_distinct _ _ _ Hget) as Hab.
  assert (Hba : b <> a) by congruence.
  unfold run. simpl.
  rewrite !Responsive_select_with, !Fixed_select_with, !select_with_empty.
  rewrite !(select_with_one _ _ _ _ _ Hab), !(select_with_one _ _ _ _ _ Hba).
  rewrite !accept_by_search_get by assumption.
  unfold accept_by_key. rewrite <- (pair_key_comm a b), Hget, Htext.
  repeat split; reflexivity.
Qed.

(** C4.  For two distinct names without an entry in a table of
    canonical keys, [selectItem(a); selectItem(b)] from an empty
    selection ends with selection [[a]] and an empty summary, and
    the second call returns the state it was given.  Both
    variants; the functions are total, so nothing is raised. *)
Theorem invalid_pair_rejected (a b sm : string) (tab : nat) :
  a <> b ->
  JS.get summaries (pair_key a b) = None ->
  (run (Responsive.handleNodeSelect summaries) [a; b] (mkState [] sm tab)
   = mkState [a] EmptyString tab
   /\ Responsive.handleNodeSelect summaries b
        (Responsive.handleNodeSelect summaries a (mkState [] sm tab))
      = Responsive.handleNodeSelect summaries a (mkState [] sm tab))
  /\ (run (Fixed.handleNodeSelect summaries) [a; b] (mkState [] sm tab)
      = mkState [a] EmptyString tab
      /\ Fixed.handleNodeSelect summaries b
           (Fixed.handleNodeSelect summaries a (mkState [] sm tab))
         = Fixed.handleNodeSelect summaries a (mkState [] sm tab)).
Proof.
  intros Hab Hget. unfold run. simpl.
  rewrite !Responsive_select_with, !Fixed_select_with, !select_with_empty.
  rewrite !(select_with_one _ _ _ _ _ Hab).
  rewrite !accept_by_search_get by assumption.
  unfold accept_by_key. rewrite Hget. repeat split; reflexivity.
Qed.

(** C10.  In every state reached from the initial state by
    [selectItem] and [reset] calls, over a table of canonical keys,
    a non-empty summary comes with a selection of exactly two names
    and is the table's entry for that pair.  Both variants. *)
Theorem summary_is_entry_of_pair (events : list Event) :
  let reached_responsive :=
    runEvents (Responsive.handleNodeSelect summaries)
      Responsive.handleReset events initialState in
  let reached_fixed :=
    runEvents (Fixed.handleNodeSelect summaries)
      Fixed.handleReset events initialState in
  (summary reached_responsive <> EmptyString ->
   exists a b,
     selectedItems reached_responsive = [a; b]
     /\ JS.get summaries (pair_key a b) = Some (summary reached_responsive))
  /\ (summary reached_fixed <> EmptyString ->
      exists a b,
        selectedItems reached_fixed = [a; b]
        /\ JS.get summaries (pair_key a b) = Some (summary reached_fixed)).
Proof.
  assert (Hinit : coherent summaries initialState)
    by (apply coherent_blank; simpl; lia).
  cbv zeta. split.
  - rewrite (runEvents_ext _ _ _ (Responsive_select_with summaries)).
    apply (runEvents_coherent summaries (accept_by_search summaries));
      [|reflexivity|assumption].
    intros a x text Hax. now rewrite accept_by_search_get.
  - rewrite (runEvents_ext _ _ _ (Fixed_select_with summaries)).
    apply (runEvents_coherent summaries (accept_by_key summaries));
      [|reflexivity|assumption].
    intros a x text _. unfold accept_by_key.
    destruct (JS.get summaries (pair_key a x)) as [t|]; [|discriminate].
    destruct (JS.truthy t); congruence.
Qed.

(** C5, as the code has it.  Over a table of canonical keys, the
    [availableTabs] of the responsive variant is the derived view
    [eligibleCategories] of the specification: every category for the
    empty selection; for a selection [[a]], the categories holding at
    least one partner of [a], in their order; none for two (or more)
    entries.  The fixed-size variant has no such view: its tab list is
    every category, whatever the selection. *)
Theorem availableTabs_spec (selection : list string) :
  Responsive.availableTabs summaries selection
  = eligibleCategories_spec summaries selection
  /\ Fixed.tabs selection = data_children mindmapData.
Proof.
  split; [|reflexivity].
  unfold Responsive.availableTabs, eligibleCategories_spec.
  destruct selection as [|a [|b rest]]; simpl List.length; cbv iota beta;
    try reflexivity.
  change (nth 0 [a] EmptyString) with a.
  change ((1 =? 0)%nat) with false. change ((1 =? 1)%nat) with true.
  cbv iota. apply filter_ext. intros c.
  apply existsb_pointwise. intros item.
  rewrite <- (partners_listed summaries a item canonical).
  do 3 f_equal. apply filter_ext. intros key. apply some_is_includes.
Qed.

Section NonBlankTable.

Hypothesis nonblank : nonempty_summaries summaries = true.

Lemma accepts_agree (a b : string) :
  a <> b ->
  accept_by_search summaries a b = accept_by_key summaries a b.
Proof.
  intros Hab.
  now rewrite accept_by_search_get, accept_by_key_get.
Qed.

(** C7, as the code has it.  Over a table whose keys are canonical
    and whose summaries are all non-empty, the search of the
    responsive variant and the key lookup of the fixed-size
    variant accept the same pairs of distinct names with the same
    summary, and the two [handleNodeSelect] go through the same
    states on every sequence of calls from every state. *)
Theorem variants_agree :
  (forall a b, a <> b ->
               accept_by_search summaries a b
               = accept_by_key summaries a b)
  /\ (forall items st,
         trace (Responsive.handleNodeSelect summaries) items st
         = trace (Fixed.handleNodeSelect summaries) items st).
Proof.
  split; [exact accepts_agree|].
  apply trace_ext. intros item st.
  rewrite Responsive_select_with, Fixed_select_with.
  apply select_with_ext. exact accepts_agree.
Qed.

(** C8, as the code has it.  Over a table whose keys are canonical
    and whose summaries are all non-empty, every name that
    [availableNodes] offers for a one-item selection [[a]] has an
    entry with [a] in the table, and clicking it is accepted:
    the selection becomes [[a; x]] under that entry's summary.
    Both variants. *)
Theorem eligible_item_accepted (data : MindMapNode) (a x sm : string)
  (tab : nat) :
  In x (Responsive.availableNodes summaries data [a])
  \/ In x (Fixed.availableNodes summaries data [a]) ->
  exists text,
    JS.get summaries (pair_key a x) = Some text
    /\ Responsive.handleNodeSelect summaries x (mkState [a] sm tab)
       = mkState [a; x] text tab
    /\ Fixed.handleNodeSelect summaries x (mkState [a] sm tab)
       = mkState [a; x] text tab.
Proof.
  intros Hin.
  assert (Hx : In x (Fixed.availableNodes summaries data [a]))
    by (destruct Hin as [H|H]; [rewrite <- availableNodes_agree|];
        exact H).
  apply (availableNodes_partner _ _ _ _ canonical) in Hx as [Hp _].
  unfold partner in Hp. rewrite get_includes in Hp.
  destruct (JS.get summaries (pair_key a x)) as [text|] eqn:Hget;
    [|discriminate].
  pose proof (entry_distinct _ _ _ Hget) as Hax.
  exists text. split; [reflexivity|].
  rewrite Responsive_select_with, Fixed_select_with.
  rewrite !(select_with_one _ _ _ _ _ Hax).
  rewrite accept_by_search_get, accept_by_key_get, Hget by assumption.
  split; reflexivity.
Qed.

End NonBlankTable.

End CanonicalTable.

(** Every circle of the graph forwards its datum's name to
    [handleNodeSelect], in both variants: the circle at position [i] of
    the [nodes] array selects the name of the node at that position
    (in the responsive variant while the graph is on screen).  So a
    click on the leaf at position [j] of [availableNodes] selects that
    leaf, and a click on the hub selects the hub's name. *)
Lemma click_forwards_node_name (data : MindMapNode) (i j : nat)
  (d : D3Node) (leaf : string) (st : AppState) :
  (nth_error (Responsive.nodes summaries data (selectedItems st)) i = Some d ->
   List.length (selectedItems st) < 2 ->
   Responsive.click summaries data i st
   = Responsive.handleNodeSelect summaries (name d) st)
  /\ (nth_error (Fixed.nodes summaries data (selectedItems st)) i = Some d ->
      Fixed.click summaries data i st
      = Fixed.handleNodeSelect summaries (name d) st)
  /\ (nth_error (Responsive.availableNodes summaries data (selectedItems st)) j
      = Some leaf ->
      Responsive.click summaries data (S j) st
      = Responsive.handleNodeSelect summaries leaf st)
  /\ (nth_error (Fixed.availableNodes summaries data (selectedItems st)) j
      = Some leaf ->
      Fixed.click summaries data (S j) st
      = Fixed.handleNodeSelect summaries leaf st)
  /\ (List.length (selectedItems st) < 2 ->
      Responsive.click summaries data 0 st
      = Responsive.handleNodeSelect summaries (name data) st)
  /\ Fixed.click summaries data 0 st
     = Fixed.handleNodeSelect summaries (name data) st.
Proof.
  assert (Hshown : List.length (selectedItems st) < 2 ->
                   (List.length (selectedItems st) <? 2)%nat = true)
    by (intros H; now apply Nat.ltb_lt).
  repeat split.
  - intros Hd Hlen. unfold Responsive.click. now rewrite (Hshown Hlen), Hd.
  - intros Hd. unfold Fixed.click. now rewrite Hd.
  - unfold Responsive.click, Responsive.nodes. simpl nth_error.
    intros Hleaf.
    rewrite (nth_error_map (fun child => mkNode child None)), Hleaf. simpl.
    destruct (selectedItems st) as [|a [|b rest]]; simpl; try reflexivity.
    unfold Responsive.availableNodes in Hleaf. simpl in Hleaf.
    destruct j; discriminate.
  - unfold Fixed.click, Fixed.nodes. simpl nth_error. intros Hleaf.
    now rewrite (nth_error_map (fun child => mkNode child None)), Hleaf.
  - intros Hlen. unfold Responsive.click. now rewrite (Hshown Hlen).
Qed.

End Claims.

(** ** The claims at concrete inputs *)

Lemma selection_bound_witness :
  List.length (selectedItems initialState) <= 2
  /\ Forall (fun s => List.length (selectedItems s) <= 2)
       (trace (Responsive.handleNodeSelect example_summaries)
          ["AIOps"; "ServiceNow"; "AIOps"; "BMC"] initialState).
Proof.
  split; [simpl; lia|].
  apply (selection_bound example_summaries
           ["AIOps"; "ServiceNow"; "AIOps"; "BMC"] initialState).
  simpl; lia.
Defined.

Lemma third_click_deselects_witness :
  (JS.get example_summaries "AIOps,ServiceNow" = Some "text"
   /\ JS.truthy "text" = true)
  /\ run (Fixed.handleNodeSelect example_summaries)
       ["AIOps"; "ServiceNow"; "AIOps"] initialState
     = mkState ["ServiceNow"] EmptyString 0.
Proof.
  split; [split; reflexivity|].
  apply (third_click_deselects example_summaries "text" EmptyString 0);
    reflexivity.
Defined.

(** C1 as stated fails: after the three calls the selection is not
    [["AIOps"]], in either variant.  Over a blank summary the fixed-size
    variant never pairs the two names, and the third click empties the
    selection. *)
Lemma third_click_does_not_reselect :
  JS.get example_summaries "AIOps,ServiceNow" = Some "text"
  /\ ~ (selectedItems
          (run (Responsive.handleNodeSelect example_summaries)
             ["AIOps"; "ServiceNow"; "AIOps"] initialState) = ["AIOps"]
        /\ summary
             (run (Responsive.handleNodeSelect example_summaries)
                ["AIOps"; "ServiceNow"; "AIOps"] initialState) = EmptyString)
  /\ ~ (selectedItems
          (run (Fixed.handleNodeSelect example_summaries)
             ["AIOps"; "ServiceNow"; "AIOps"] initialState) = ["AIOps"]
        /\ summary
             (run (Fixed.handleNodeSelect example_summaries)
                ["AIOps"; "ServiceNow"; "AIOps"] initialState) = EmptyString)
  /\ run (Fixed.handleNodeSelect blank_summaries)
       ["AIOps"; "ServiceNow"; "AIOps"] initialState
     = mkState [] EmptyString 0.
Proof.
  split; [reflexivity|].
  split; [|split; [|reflexivity]];
    intros [Hsel _]; vm_compute in Hsel; discriminate.
Qed.

Lemma pairing_symmetric_up_to_order_witness :
  (canonical_keys example_summaries = true
   /\ JS.get example_summaries (pair_key "ServiceNow" "AIOps") = Some "text"
   /\ JS.truthy "text" = true)
  /\ run (Responsive.handleNodeSelect example_summaries)
       ["AIOps"; "ServiceNow"] initialState
     = mkState ["AIOps"; "ServiceNow"] "text" 0.
Proof.
  split; [repeat split; reflexivity|].
  apply (pairing_symmetric_up_to_order example_summaries eq_refl
           "ServiceNow" "AIOps" "text" EmptyString 0); reflexivity.
Defined.

(** C2 as stated fails: the two orders end in different selection
    sequences, in either variant.  Over a blank summary the fixed-size
    variant rejects the pair in both orders and keeps the first name
    clicked. *)
Lemma click_order_is_kept :
  JS.get example_summaries (pair_key "AIOps" "ServiceNow") = Some "text"
  /\ ~ (selectedItems
          (run (Responsive.handleNodeSelect example_summaries)
             ["AIOps"; "ServiceNow"] initialState)
        = selectedItems
            (run (Responsive.handleNodeSelect example_summaries)
               ["ServiceNow"; "AIOps"] initialState)
        /\ summary
             (run (Responsive.handleNodeSelect example_summaries)
                ["AIOps"; "ServiceNow"] initialState)
           = summary
               (run (Responsive.handleNodeSelect example_summaries)
                  ["ServiceNow"; "AIOps"] initialState))
  /\ ~ (selectedItems
          (run (Fixed.handleNodeSelect example_summaries)
             ["AIOps"; "ServiceNow"] initialState)
        = selectedItems
            (run (Fixed.handleNodeSelect example_summaries)
               ["ServiceNow"; "AIOps"] initialState)
        /\ summary
             (run (Fixed.handleNodeSelect example_summaries)
                ["AIOps"; "ServiceNow"] initialState)
           = summary
               (run (Fixed.handleNodeSelect example_summaries)
                  ["ServiceNow"; "AIOps"] initialState))
  /\ (run (Fixed.handleNodeSelect blank_summaries)
        ["AIOps"; "ServiceNow"] initialState
      = mkState ["AIOps"] EmptyString 0
      /\ run (Fixed.handleNodeSelect blank_summaries)
           ["ServiceNow"; "AIOps"] initialState
         = mkState ["ServiceNow"] EmptyString 0).
Proof.
  split; [reflexivity|].
  split; [|split; [|split; reflexivity]];
    intros [Hsel _]; vm_compute in Hsel; discriminate.
Qed.

Lemma invalid_pair_rejected_witness :
  (canonical_keys example_summaries = true
   /\ "AIOps" <> "BMC"
   /\ JS.get example_summaries (pair_key "AIOps" "BMC") = None)
  /\ run (Fixed.handleNodeSelect example_summaries) ["AIOps"; "BMC"]
       initialState
     = mkState ["AIOps"] EmptyString 0.
Proof.
  split; [split; [reflexivity | split; [discriminate | reflexivity]]|].
  apply (invalid_pair_rejected example_summaries eq_refl "AIOps" "BMC"
           EmptyString 0);
    [discriminate | reflexivity].
Defined.

Lemma availableTabs_spec_witness :
  canonical_keys example_summaries = true
  /\ Responsive.availableTabs example_summaries ["AIOps"]
     = eligibleCategories_spec example_summaries ["AIOps"].
Proof.
  split; [reflexivity|].
  apply (availableTabs_spec example_summaries eq_refl ["AIOps"]).
Defined.

(** C5 as stated fails in the fixed-size variant: with one or two names
    selected its tab list still holds the seven categories, where the
    view of the specification holds two of them and none. *)
Lemma fixed_tabs_are_never_filtered :
  canonical_keys example_summaries = true
  /\ map name (Fixed.tabs ["AIOps"])
     = ["Technologies"; "Market Trends"; "Key Players"; "Challenges";
        "Benefits"; "Industry Verticals"; "Future Outlook"]
  /\ map name (eligibleCategories_spec example_summaries ["AIOps"])
     = ["Key Players"; "Benefits"]
  /\ Fixed.tabs ["AIOps"]
     <> eligibleCategories_spec example_summaries ["AIOps"]
  /\ List.length (Fixed.tabs ["AIOps"; "ServiceNow"]) = 7
  /\ Fixed.tabs ["AIOps"; "ServiceNow"]
     <> eligibleCategories_spec example_summaries ["AIOps"; "ServiceNow"].
Proof.
  repeat split; try reflexivity; vm_compute; discriminate.
Qed.

Lemma click_forwards_node_name_witness :
  nth_error
    (Responsive.availableNodes example_summaries technologies
       (selectedItems initialState)) 1 = Some "AIOps"
  /\ Responsive.click example_summaries technologies 2 initialState
     = Responsive.handleNodeSelect example_summaries "AIOps" initialState.
Proof.
  split; [reflexivity|].
  apply (click_forwards_node_name example_summaries technologies 2 1
           (mkNode "AIOps" None) "AIOps" initialState).
  reflexivity.
Defined.

(** C6.  The code at a hub click: from the initial state, a click on
    the hub circle of the "Technologies" graph calls
    [handleNodeSelect("Technologies")] and makes the category's name
    the one selected entry, in both variants, where the claim has the
    selection unchanged; the responsive variant then has no tab left
    to show. *)
Lemma hub_click_selects_hub :
  nth_error (Responsive.nodes example_summaries technologies []) 0
  = Some technologies
  /\ nth_error (Fixed.nodes example_summaries technologies []) 0
     = Some technologies
  /\ Responsive.click example_summaries technologies 0 initialState
     = mkState ["Technologies"] EmptyString 0
  /\ Fixed.click example_summaries technologies 0 initialState
     = mkState ["Technologies"] EmptyString 0
  /\ Responsive.click example_summaries technologies 0 initialState
     <> initialState
  /\ Fixed.click example_summaries technologies 0 initialState
     <> initialState
  /\ Responsive.availableTabs example_summaries
       (selectedItems
          (Responsive.click example_summaries technologies 0 initialState))
     = [].
Proof.
  repeat split; try reflexivity; vm_compute; discriminate.
Qed.

Lemma variants_agree_witness :
  (canonical_keys example_summaries = true
   /\ nonempty_summaries example_summaries = true)
  /\ trace (Responsive.handleNodeSelect example_summaries)
       ["AIOps"; "ServiceNow"; "BMC"] initialState
     = trace (Fixed.handleNodeSelect example_summaries)
         ["AIOps"; "ServiceNow"; "BMC"] initialState.
Proof.
  split; [split; reflexivity|].
  apply (variants_agree example_summaries eq_refl eq_refl).
Defined.

(** C7 as stated fails: on a table of canonical keys with a blank
    summary the responsive variant accepts the pair and the fixed-size
    variant rejects it. *)
Lemma variants_differ_on_blank_summary :
  canonical_keys blank_summaries = true
  /\ run (Responsive.handleNodeSelect blank_summaries)
       ["AIOps"; "ServiceNow"] initialState
     = mkState ["AIOps"; "ServiceNow"] EmptyString 0
  /\ run (Fixed.handleNodeSelect blank_summaries)
       ["AIOps"; "ServiceNow"] initialState
     = mkState ["AIOps"] EmptyString 0
  /\ run (Responsive.handleNodeSelect blank_summaries)
       ["AIOps"; "ServiceNow"] initialState
     <> run (Fixed.handleNodeSelect blank_summaries)
          ["AIOps"; "ServiceNow"] initialState.
Proof.
  repeat split; try reflexivity. vm_compute. discriminate.
Qed.

Lemma eligible_item_accepted_witness :
  (canonical_keys example_summaries = true
   /\ nonempty_summaries example_summaries = true
   /\ In "ServiceNow"
        (Fixed.availableNodes example_summaries keyPlayers ["AIOps"]))
  /\ exists text,
       JS.get example_summaries (pair_key "AIOps" "ServiceNow") = Some text
       /\ Responsive.handleNodeSelect example_summaries "ServiceNow"
            (mkState ["AIOps"] EmptyString 0)
          = mkState ["AIOps"; "ServiceNow"] text 0
       /\ Fixed.handleNodeSelect example_summaries "ServiceNow"
            (mkState ["AIOps"] EmptyString 0)
          = mkState ["AIOps"; "ServiceNow"] text 0.
Proof.
  split; [split; [reflexivity | split; [reflexivity | left; reflexivity]]|].
  apply (eligible_item_accepted example_summaries eq_refl eq_refl keyPlayers
           "AIOps" "ServiceNow" EmptyString 0).
  right. left. reflexivity.
Defined.

(** C8 as stated fails in the fixed-size variant: on a table with a
    blank summary a name is offered as a partner and rejected when
    clicked. *)
Lemma eligible_item_rejected_on_blank_summary :
  In "ServiceNow" (Fixed.availableNodes blank_summaries keyPlayers ["AIOps"])
  /\ JS.get blank_summaries (pair_key "AIOps" "ServiceNow") = Some EmptyString
  /\ Fixed.handleNodeSelect blank_summaries "ServiceNow"
       (mkState ["AIOps"] EmptyString 0)
     = mkState ["AIOps"] EmptyString 0
  /\ selectedItems
       (Fixed.handleNodeSelect blank_summaries "ServiceNow"
          (mkState ["AIOps"] EmptyString 0))
     <> ["AIOps"; "ServiceNow"].
Proof.
  repeat split; try reflexivity; [left; reflexivity|].
  vm_compute. discriminate.
Qed.

Lemma summary_is_entry_of_pair_witness :
  canonical_keys example_summaries = true
  /\ exists a b,
       selectedItems
         (runEvents (Responsive.handleNodeSelect example_summaries)
            Responsive.handleReset
            [SelectItem "BMC"; ResetSelection; SelectItem "AIOps";
             SelectItem "ServiceNow"] initialState) = [a; b]
       /\ JS.get example_summaries (pair_key a b) = Some "text".
Proof.
  split; [reflexivity|].
  apply (summary_is_entry_of_pair example_summaries eq_refl
           [SelectItem "BMC"; ResetSelection; SelectItem "AIOps";
            SelectItem "ServiceNow"]).
  discriminate.
Defined.

(** * Further properties of the controller *)

(** ** Clicks on one- and two-item selections *)

Section SelectWithSteps.

Variable accept : string -> string -> option string.

Lemma select_with_second_of_two (a b sm : string) (tab : nat) :
  a <> b ->
  select_with accept b (mkState [a; b] sm tab) = mkState [a] EmptyString tab.
Proof.
  intros Hab. unfold select_with, JS.includes. simpl.
  rewrite !String.eqb_refl, orb_true_r. simpl.
  replace (String.eqb a b) with false
    by (symmetry; now apply String.eqb_neq).
  reflexivity.
Qed.

Lemma select_with_new_on_two (a b x sm : string) (tab : nat) :
  x <> a -> x <> b ->
  select_with accept x (mkState [a; b] sm tab) = mkState [x] EmptyString tab.
Proof.
  intros Hxa Hxb. unfold select_with, JS.includes. simpl.
  apply String.eqb_neq in Hxa, Hxb. now rewrite Hxa, Hxb.
Qed.

(** Two clicks on the same name undo each other below two entries. *)
Lemma select_with_twice (x : string) (st : AppState) :
  List.length (selectedItems st) <= 1 -> summary st = EmptyString ->
  select_with accept x (select_with accept x st) = st.
Proof.
  destruct st as [[|a [|b rest]] sm tab]; simpl; intros Hlen ->;
    [| |lia].
  - now rewrite select_with_empty, select_with_same.
  - destruct (String.string_dec a x) as [-> |Hax].
    + now rewrite select_with_same, select_with_empty.
    + rewrite (select_with_one _ _ _ _ _ Hax).
      destruct (accept a x) as [text|] eqn:Hacc.
      * now apply select_with_second_of_two.
      * now rewrite (select_with_one _ _ _ _ _ Hax), Hacc.
Qed.

(** A click on a selected name, in a selection of at most two, takes
    exactly that name out and blanks the summary. *)
Lemma select_with_deselect (x : string) (st : AppState) :
  List.length (selectedItems st) <= 2 -> In x (selectedItems st) ->
  selectedItems (select_with accept x st)
  = filter (fun i => negb (String.eqb i x)) (selectedItems st)
  /\ summary (select_with accept x st) = EmptyString.
Proof.
  destruct st as [prev sm tab]. simpl. intros Hlen Hin.
  apply includes_In in Hin. unfold select_with. simpl. rewrite Hin. simpl.
  split; [reflexivity|].
  pose proof (filter_out_shrinks x prev Hin) as Hlt.
  destruct (Nat.eqb_spec
              (List.length (filter (fun i => negb (String.eqb i x)) prev)) 2);
    [lia | reflexivity].
Qed.

(** Whatever is clicked on a selection of two, fewer than two names
    remain and the summary is blank. *)
Lemma select_with_leaves_two (x : string) (st : AppState) :
  List.length (selectedItems st) = 2 ->
  List.length (selectedItems (select_with accept x st)) <= 1
  /\ summary (select_with accept x st) = EmptyString.
Proof.
  intros Hlen. destruct (JS.includes x (selectedItems st)) eqn:Hinc.
  - apply includes_In in Hinc.
    destruct (select_with_deselect x st) as [-> ->]; [lia|assumption|].
    apply includes_In in Hinc.
    pose proof (filter_out_shrinks x (selectedItems st) Hinc). split; [lia|].
    reflexivity.
  - destruct st as [[|a [|b [|c rest]]] sm tab]; simpl in Hlen; try lia.
    cbn [selectedItems] in Hinc.
    unfold select_with. cbn [selectedItems]. rewrite Hinc. simpl.
    split; [lia | reflexivity].
Qed.

Lemma select_with_NoDup (x : string) (st : AppState) :
  NoDup (selectedItems st) ->
  NoDup (selectedItems (select_with accept x st)).
Proof.
  destruct st as [prev sm tab]. simpl. intros Hnd.
  unfold select_with. simpl.
  destruct (JS.includes x prev) eqn:Hinc; simpl.
  - now apply NoDup_filter.
  - assert (Hone : NoDup [x]) by (constructor; [easy | constructor]).
    destruct prev as [|a [|b rest]]; simpl; try assumption.
    destruct (accept a x); simpl; [|assumption].
    constructor; [|assumption]. simpl. intros [E|[]]. subst x.
    unfold JS.includes in Hinc. simpl in Hinc.
    now rewrite String.eqb_refl in Hinc.
Qed.

Lemma trace_NoDup (items : list string) (st : AppState) :
  NoDup (selectedItems st) ->
  Forall (fun s => NoDup (selectedItems s))
    (trace (select_with accept) items st).
Proof.
  revert st. induction items as [|item rest IH]; intros st Hnd; simpl.
  - constructor; [assumption | constructor].
  - constructor; [assumption|]. apply IH. now apply select_with_NoDup.
Qed.

(** Settled states stay settled. *)
Lemma select_with_settled (x : string) (st : AppState) :
  settled accept st -> settled accept (select_with accept x st).
Proof.
  destruct st as [prev sm tab]. intros [Hnd Hsum]. simpl in Hnd, Hsum.
  assert (Hblank : forall sel, List.length sel <= 1 -> NoDup sel ->
                               settled accept (mkState sel EmptyString tab)).
  { intros [|s [|s' sel]] Hlen Hsel; simpl in Hlen; try lia;
      split; simpl; auto. }
  assert (Hone : forall s : string, NoDup [s])
    by (intros s; constructor; [simpl; tauto | constructor]).
  destruct prev as [|a [|b [|c rest]]]; try contradiction.
  - rewrite select_with_empty. apply Hblank; simpl; auto.
  - destruct (String.string_dec a x) as [-> |Hax].
    + rewrite select_with_same. apply Hblank; simpl; auto. constructor.
    + rewrite (select_with_one _ _ _ _ _ Hax).
      destruct (accept a x) as [text|] eqn:Hacc.
      * split; simpl; [|assumption].
        constructor; [|apply Hone]. simpl. intros [E|[]]. now apply Hax.
      * apply Hblank; simpl; auto.
  - assert (Hab : a <> b).
    { intros ->. inversion Hnd as [|? ? Hnotin _]. apply Hnotin. now left. }
    destruct (String.string_dec x a) as [-> |Hxa];
      [|destruct (String.string_dec x b) as [-> |Hxb]].
    + rewrite (select_with_first_of_two _ _ _ _ _ Hab).
      apply Hblank; simpl; auto.
    + rewrite (select_with_second_of_two _ _ _ _ Hab).
      apply Hblank; simpl; auto.
    + rewrite (select_with_new_on_two _ _ _ _ _ Hxa Hxb).
      apply Hblank; simpl; auto.
Qed.

Lemma runEvents_settled (reset : AppState -> AppState)
  (events : list Event) (st : AppState) :
  (forall s, reset s = mkState [] EmptyString 0) ->
  settled accept st ->
  settled accept (runEvents (select_with accept) reset events st).
Proof.
  intros Hreset. unfold runEvents. revert st.
  induction events as [|e rest IH]; intros st Hst; simpl; [assumption|].
  apply IH. destruct e as [item|]; simpl.
  - now apply select_with_settled.
  - rewrite Hreset. split; simpl; [constructor | reflexivity].
Qed.

End SelectWithSteps.

Lemma find_pointwise {A : Type} (f g : A -> bool) (l : list A) :
  (forall x, f x = g x) -> find f l = find g l.
Proof.
  intros Hfg. induction l as [|x rest IH]; simpl; [reflexivity|].
  now rewrite Hfg, IH.
Qed.

Lemma accept_by_search_sym (summaries : JS.object) (a b : string) :
  accept_by_search summaries a b = accept_by_search summaries b a.
Proof.
  unfold accept_by_search.
  rewrite (find_pointwise _
             (fun k => JS.includes b (JS.split comma k)
                       && JS.includes a (JS.split comma k)));
    [reflexivity|].
  intros k. apply andb_comm.
Qed.

Lemma accept_by_key_sym (summaries : JS.object) (a b : string) :
  accept_by_key summaries a b = accept_by_key summaries b a.
Proof.
  unfold accept_by_key. now rewrite (pair_key_comm a b).
Qed.

Lemma select_with_sym (accept : string -> string -> option string)
  (a b sm1 sm2 : string) (tab : nat) :
  accept a b = accept b a ->
  summary (select_with accept b (mkState [a] sm1 tab))
  = summary (select_with accept a (mkState [b] sm2 tab))
  /\ (selectedItems (select_with accept b (mkState [a] sm1 tab)) = [a; b]
      <-> selectedItems (select_with accept a (mkState [b] sm2 tab)) = [b; a]).
Proof.
  intros Hsym. destruct (String.string_dec a b) as [-> |Hab].
  - rewrite !select_with_same. simpl. split; [reflexivity|].
    split; discriminate.
  - assert (Hba : b <> a) by congruence.
    rewrite (select_with_one _ _ _ _ _ Hab), (select_with_one _ _ _ _ _ Hba).
    rewrite <- Hsym. destruct (accept a b); simpl.
    + split; [reflexivity | split; reflexivity].
    + split; [reflexivity | split; discriminate].
Qed.

Lemma settled_initial (accept : string -> string -> option string) :
  settled accept initialState.
Proof. split; simpl; [constructor | reflexivity]. Qed.

Lemma accept_by_key_some (summaries : JS.object) (a b text : string) :
  accept_by_key summaries a b = Some text ->
  JS.get summaries (pair_key a b) = Some text /\ JS.truthy text = true.
Proof.
  unfold accept_by_key.
  destruct (JS.get summaries (pair_key a b)) as [t|]; [|discriminate].
  destruct (JS.truthy t) eqn:Ht; [|discriminate].
  intros E. injection E as <-. split; [reflexivity | exact Ht].
Qed.

Section Controller.

Variable summaries : JS.object.

(** X1.  In a state with at most one selected name and a blank summary,
    two clicks on the same name give the state back, whatever the name
    and the table.  Both variants. *)
Theorem double_click_identity (x : string) (st : AppState) :
  List.length (selectedItems st) <= 1 -> summary st = EmptyString ->
  Responsive.handleNodeSelect summaries x
    (Responsive.handleNodeSelect summaries x st) = st
  /\ Fixed.handleNodeSelect summaries x
       (Fixed.handleNodeSelect summaries x st) = st.
Proof.
  intros Hlen Hsum.
  rewrite !Responsive_select_with, !Fixed_select_with.
  split; now apply select_with_twice.
Qed.

(** X2.  From a selection that lists no name twice, no selection along
    a sequence of [selectItem] calls lists a name twice.  Both
    variants. *)
Theorem selection_has_no_duplicates (items : list string) (st : AppState) :
  NoDup (selectedItems st) ->
  Forall (fun s => NoDup (selectedItems s))
    (trace (Responsive.handleNodeSelect summaries) items st)
  /\ Forall (fun s => NoDup (selectedItems s))
       (trace (Fixed.handleNodeSelect summaries) items st).
Proof.
  intros Hnd. split.
  - rewrite (trace_ext _ _ (Responsive_select_with summaries)).
    now apply trace_NoDup.
  - rewrite (trace_ext _ _ (Fixed_select_with summaries)).
    now apply trace_NoDup.
Qed.

(** X3.  Any click on a selection of two names leaves fewer than two
    names and a blank summary: a pair is never followed by a pair.
    Both variants. *)
Theorem click_on_pair_blanks_summary (x : string) (st : AppState) :
  List.length (selectedItems st) = 2 ->
  (List.length (selectedItems (Responsive.handleNodeSelect summaries x st)) <= 1
   /\ summary (Responsive.handleNodeSelect summaries x st) = EmptyString)
  /\ (List.length (selectedItems (Fixed.handleNodeSelect summaries x st)) <= 1
      /\ summary (Fixed.handleNodeSelect summaries x st) = EmptyString).
Proof.
  intros Hlen. rewrite Responsive_select_with, Fixed_select_with.
  split; now apply select_with_leaves_two.
Qed.

(** X4.  A click on a name that is selected, in a selection of at most
    two, removes that name, keeps the others in order and blanks the
    summary.  Both variants. *)
Theorem click_on_selected_removes_it (x : string) (st : AppState) :
  List.length (selectedItems st) <= 2 -> In x (selectedItems st) ->
  (selectedItems (Responsive.handleNodeSelect summaries x st)
   = filter (fun i => negb (String.eqb i x)) (selectedItems st)
   /\ ~ In x (selectedItems (Responsive.handleNodeSelect summaries x st))
   /\ summary (Responsive.handleNodeSelect summaries x st) = EmptyString)
  /\ (selectedItems (Fixed.handleNodeSelect summaries x st)
      = filter (fun i => negb (String.eqb i x)) (selectedItems st)
      /\ ~ In x (selectedItems (Fixed.handleNodeSelect summaries x st))
      /\ summary (Fixed.handleNodeSelect summaries x st) = EmptyString).
Proof.
  intros Hlen Hin. rewrite Responsive_select_with, Fixed_select_with.
  assert (Hout : ~ In x (filter (fun i => negb (String.eqb i x))
                           (selectedItems st))).
  { rewrite filter_In. intros [_ H]. now rewrite String.eqb_refl in H. }
  split.
  - destruct (select_with_deselect (accept_by_search summaries) x st Hlen Hin)
      as [-> ->]. auto.
  - destruct (select_with_deselect (accept_by_key summaries) x st Hlen Hin)
      as [-> ->]. auto.
Qed.

(** X5.  Whether a pair is accepted, and under which summary, does not
    depend on which of its two names was clicked first, for any table.
    Both variants. *)
Theorem acceptance_is_symmetric (a b sm1 sm2 : string) (tab : nat) :
  (summary (Responsive.handleNodeSelect summaries b (mkState [a] sm1 tab))
   = summary (Responsive.handleNodeSelect summaries a (mkState [b] sm2 tab))
   /\ (selectedItems
         (Responsive.handleNodeSelect summaries b (mkState [a] sm1 tab))
       = [a; b]
       <-> selectedItems
             (Responsive.handleNodeSelect summaries a (mkState [b] sm2 tab))
           = [b; a]))
  /\ (summary (Fixed.handleNodeSelect summaries b (mkState [a] sm1 tab))
      = summary (Fixed.handleNodeSelect summaries a (mkState [b] sm2 tab))
      /\ (selectedItems
            (Fixed.handleNodeSelect summaries b (mkState [a] sm1 tab))
          = [a; b]
          <-> selectedItems
                (Fixed.handleNodeSelect summaries a (mkState [b] sm2 tab))
              = [b; a])).
Proof.
  rewrite !Responsive_select_with, !Fixed_select_with. split.
  - apply select_with_sym, accept_by_search_sym.
  - apply select_with_sym, accept_by_key_sym.
Qed.

(** X6.  In every state reached from the initial state by [selectItem]
    and [reset] calls, for any table, two selected names are distinct
    and the summary is the value of a key that pairs them: in the
    responsive variant a key of the table whose parts hold both names,
    in the fixed-size variant the pair's canonical key, with a value
    that is not empty. *)
Theorem pair_selected_has_entry (events : list Event) (a b : string) :
  let reached_responsive :=
    runEvents (Responsive.handleNodeSelect summaries)
      Responsive.handleReset events initialState in
  let reached_fixed :=
    runEvents (Fixed.handleNodeSelect summaries)
      Fixed.handleReset events initialState in
  (selectedItems reached_responsive = [a; b] ->
   a <> b
   /\ exists key,
       In key (JS.keys summaries)
       /\ In a (JS.split comma key) /\ In b (JS.split comma key)
       /\ JS.get summaries key = Some (summary reached_responsive))
  /\ (selectedItems reached_fixed = [a; b] ->
      a <> b
      /\ JS.get summaries (pair_key a b) = Some (summary reached_fixed)
      /\ summary reached_fixed <> EmptyString).
Proof.
  cbv zeta. split.
  - rewrite (runEvents_ext _ _ _ (Responsive_select_with summaries)).
    pose proof (runEvents_settled (accept_by_search summaries)
                  Responsive.handleReset events initialState
                  (fun _ => eq_refl) (settled_initial _)) as [Hnd Hsum].
    intros Hsel. rewrite Hsel in Hnd, Hsum. split.
    + intros ->. inversion Hnd as [|? ? Hnotin _]. apply Hnotin. now left.
    + unfold accept_by_search in Hsum.
      destruct (find _ _) as [key|] eqn:F; [|discriminate].
      destruct (JS.truthy key); [|discriminate].
      destruct (found_key_has_value _ _ _ F) as [text Hget].
      injection Hsum as Hsum. rewrite Hget in Hsum.
      apply find_some in F as [Hin Hboth].
      apply andb_prop in Hboth as [Ha Hb]. apply includes_In in Ha, Hb.
      exists key. repeat split; try assumption.
      rewrite Hget. f_equal. exact Hsum.
  - rewrite (runEvents_ext _ _ _ (Fixed_select_with summaries)).
    pose proof (runEvents_settled (accept_by_key summaries)
                  Fixed.handleReset events initialState
                  (fun _ => eq_refl) (settled_initial _)) as [Hnd Hsum].
    intros Hsel. rewrite Hsel in Hnd, Hsum. split.
    + intros ->. inversion Hnd as [|? ? Hnotin _]. apply Hnotin. now left.
    + apply accept_by_key_some in Hsum as [Hget Ht].
      split; [assumption|]. intros E. rewrite E in Ht. discriminate.
Qed.

(** X7.  In every state the fixed-size variant reaches from the initial
    state, for any table, the summary panel is shown exactly when two
    names are selected. *)
Theorem summary_panel_iff_pair (events : list Event) :
  let reached :=
    runEvents (Fixed.handleNodeSelect summaries) Fixed.handleReset events
      initialState in
  summaryShown reached = (List.length (selectedItems reached) =? 2)%nat.
Proof.
  cbv zeta.
  rewrite (runEvents_ext _ _ _ (Fixed_select_with summaries)).
  pose proof (runEvents_settled (accept_by_key summaries)
                Fixed.handleReset events initialState
                (fun _ => eq_refl) (settled_initial _)) as [_ Hsum].
  unfold summaryShown.
  destruct (selectedItems _) as [|a [|b [|c rest]]]; try contradiction;
    try (rewrite Hsum; reflexivity).
  now apply accept_by_key_some in Hsum as [_ Ht].
Qed.

(** X8.  In every state the responsive variant reaches from the initial
    state, for any table, the graph area and the summary panel are
    never shown together. *)
Theorem graph_and_summary_exclusive (events : list Event) :
  let reached :=
    runEvents (Responsive.handleNodeSelect summaries)
      Responsive.handleReset events initialState in
  Responsive.graphShown reached && summaryShown reached = false.
Proof.
  cbv zeta.
  rewrite (runEvents_ext _ _ _ (Responsive_select_with summaries)).
  pose proof (runEvents_settled (accept_by_search summaries)
                Responsive.handleReset events initialState
                (fun _ => eq_refl) (settled_initial _)) as [_ Hsum].
  unfold summaryShown, Responsive.graphShown.
  destruct (selectedItems _) as [|a [|b [|c rest]]]; try contradiction;
    try (rewrite Hsum; reflexivity).
  reflexivity.
Qed.

End Controller.

(** * Further properties of the graph and the tabs *)

Lemma nonempty_filter {A : Type} (f : A -> bool) (l : list A) :
  match filter f l with [] => false | _ :: _ => true end = existsb f l.
Proof.
  induction l as [|x rest IH]; simpl; [reflexivity|].
  destruct (f x); [reflexivity | exact IH].
Qed.

Lemma existsb_swap (keep : string -> bool) (l1 l2 : list string) :
  existsb (fun x => JS.includes x (filter keep l2)) l1
  = existsb (fun y => keep y && JS.includes y l1) l2.
Proof.
  apply Bool.eq_iff_eq_true. rewrite !existsb_exists. split.
  - intros (x & Hx & Hinc). apply includes_In, filter_In in Hinc as [Hin Hk].
    exists x. split; [assumption|]. rewrite Hk. now apply includes_In.
  - intros (y & Hy & Hboth). apply andb_prop in Hboth as [Hk Hinc].
    apply includes_In in Hinc. exists y. split; [assumption|].
    apply includes_In, filter_In. now split.
Qed.

Lemma filter_none {A : Type} (f : A -> bool) (l : list A) :
  (forall x, In x l -> f x = false) -> filter f l = [].
Proof.
  induction l as [|x rest IH]; simpl; intros H; [reflexivity|].
  rewrite (H x (or_introl eq_refl)). apply IH. intros y Hy. apply H. now right.
Qed.

Lemma find_leaf (child : string) (leaves : list string) :
  In child leaves ->
  find (fun n => String.eqb (name n) child)
    (map (fun c => mkNode c None) leaves)
  = Some (mkNode child None).
Proof.
  induction leaves as [|c rest IH]; simpl; [easy|].
  intros Hin. destruct (String.eqb_spec c child) as [-> |Hc];
    [reflexivity|].
  destruct Hin as [E|Hin]; [congruence | now apply IH].
Qed.

(** The links over a hub and its leaves form a star: link by link, from
    the hub to the node named after the leaf. *)
Lemma links_star (data : MindMapNode) (leaves : list string) :
  links (data :: map (fun c => mkNode c None) leaves) leaves
  = map (fun child =>
           {| source := Some data;
              target := Some (if String.eqb (name data) child then data
                              else mkNode child None) |})
      leaves.
Proof.
  unfold links. apply map_ext_in. intros child Hin. simpl. f_equal.
  destruct (String.eqb (name data) child); [reflexivity|].
  now apply find_leaf.
Qed.

(** ** The pieces of a split *)

Lemma split_pieces (sep : ascii) (s piece : string) :
  In piece (JS.split sep s) -> contains_char sep piece = false.
Proof.
  revert piece. induction s as [|c rest IH]; simpl; intros piece.
  - intros [<-|[]]. reflexivity.
  - destruct (Ascii.eqb c sep) eqn:Ec.
    + intros [<-|Hin]; [reflexivity | now apply IH].
    + destruct (JS.split sep rest) as [|h t] eqn:Es;
        [now apply split_not_nil in Es|].
      intros [<-|Hin]; simpl.
      * rewrite Ec. apply IH. now left.
      * apply IH. now right.
Qed.

Lemma split_whole (sep : ascii) (s : string) :
  contains_char sep s = false -> JS.split sep s = [s].
Proof.
  induction s as [|c rest IH]; simpl; [reflexivity|].
  intros H. apply orb_false_elim in H as [Ec Hrest].
  now rewrite Ec, (IH Hrest).
Qed.

Lemma leb_neq_ltb (s t : string) :
  String.leb s t = true -> s <> t -> String.ltb s t = true.
Proof.
  unfold String.leb, String.ltb.
  destruct (String.compare s t) eqn:E; try easy.
  intros _ Hne. apply String.compare_eq_iff in E. contradiction.
Qed.

Lemma not_leb_ltb (s t : string) :
  String.leb s t = false -> String.ltb t s = true.
Proof.
  unfold String.leb, String.ltb. rewrite (String.compare_antisym t s).
  destruct (String.compare s t); simpl; congruence.
Qed.

(** ** Names offered once *)

Lemma offered_in_rest (ks : list string) (a x : string)
  (keep : string -> bool) :
  forallb canonical_key ks = true ->
  (forall i, keep i = true -> i <> a) ->
  In x (filter keep
          (flat_map (JS.split comma)
             (filter (fun key => JS.includes a (JS.split comma key)) ks))) ->
  In (pair_key a x) ks.
Proof.
  intros Hks Hkeep Hin. apply filter_In in Hin as [Hin Hk].
  apply includes_In. rewrite <- (exists_key_canonical ks a x Hks);
    [|intros ->; now apply (Hkeep x)].
  rewrite <- includes_flat_map_split. now apply includes_In.
Qed.

Lemma offered_once (ks : list string) (a : string) (keep : string -> bool) :
  forallb canonical_key ks = true -> NoDup ks ->
  (forall i, keep i = true -> i <> a) ->
  NoDup (filter keep
           (flat_map (JS.split comma)
              (filter (fun key => JS.includes a (JS.split comma key)) ks))).
Proof.
  intros Hks Hnd Hkeep. induction ks as [|k rest IH]; simpl; [constructor|].
  simpl in Hks. apply andb_prop in Hks as [Hk Hrest].
  inversion Hnd as [|? ? Hnotin Hnd']; subst.
  specialize (IH Hrest Hnd').
  destruct (JS.includes a (JS.split comma k)) eqn:Ha; [|exact IH].
  simpl. rewrite filter_app.
  destruct (canonical_key_parts k Hk) as (p & q & Hsplit & Hlt & Hkeq).
  destruct (pair_key_sorted p q Hlt) as [Kpq Kqp].
  rewrite Hsplit in Ha |- *. apply includes_In in Ha.
  assert (Hfresh : forall x, (a = p /\ x = q) \/ (a = q /\ x = p) ->
                             ~ In x (filter keep
                                       (flat_map (JS.split comma)
                                          (filter
                                             (fun key =>
                                                JS.includes a
                                                  (JS.split comma key))
                                             rest)))).
  { intros x Hx Hin. apply Hnotin.
    apply (offered_in_rest rest a x keep Hrest Hkeep) in Hin.
    destruct Hx as [[-> ->]|[-> ->]]; congruence. }
  assert (Hdrop : forall i, i = a -> keep i = false).
  { intros i ->. destruct (keep a) eqn:E; [|reflexivity].
    now apply Hkeep in E. }
  simpl in Ha. destruct Ha as [Ha|[Ha|[]]]; subst a; simpl.
  - rewrite (Hdrop p eq_refl). destruct (keep q); simpl; [|exact IH].
    constructor; [apply Hfresh; auto | exact IH].
  - rewrite (Hdrop q eq_refl). destruct (keep p); simpl; [|exact IH].
    constructor; [apply Hfresh; auto | exact IH].
Qed.

Section Rendering.

Variable summaries : JS.object.

(** X9.  No circle is ever filled with the selected colour: of the
    nodes drawn for a category, the hub gets the hub colour and every
    leaf the plain colour, whatever the selection and the table.  Both
    variants. *)
Theorem drawn_circle_never_selected_colour (data : MindMapNode)
  (leaves : list string) (selection : list string) (d : D3Node) :
  children data = Some leaves ->
  In d (Responsive.nodes summaries data selection)
  \/ In d (Fixed.nodes summaries data selection) ->
  circleFill selection d
  = match children d with
    | Some _ => "#69b3a2"
    | None => "#3498db"
    end.
Proof.
  intros Hdata Hin.
  assert (Hd : In d (Fixed.nodes summaries data selection))
    by (destruct Hin as [H|H]; [|exact H];
        unfold Responsive.nodes in H; now rewrite availableNodes_agree in H).
  clear Hin. unfold Fixed.nodes in Hd. destruct Hd as [<-|Hd].
  - unfold circleFill. now rewrite Hdata.
  - apply in_map_iff in Hd as (child & <- & Hchild).
    unfold circleFill. simpl.
    replace (JS.includes child selection) with false; [reflexivity|].
    symmetry. unfold Fixed.availableNodes in Hchild.
    destruct selection as [|a [|b rest]]; simpl in Hchild;
      [reflexivity | | contradiction].
    apply filter_In in Hchild as [_ Hkeep].
    apply andb_prop in Hkeep as [Hne _].
    unfold JS.includes. simpl. rewrite orb_false_r.
    now apply negb_true_iff in Hne.
Qed.

(** X10.  With one name selected, the responsive variant shows the tab
    of a category exactly when that category's graph has a leaf to
    offer, for any table. *)
Theorem tab_shown_iff_graph_has_leaf (a : string) :
  Responsive.availableTabs summaries [a]
  = filter
      (fun c =>
         match Responsive.availableNodes summaries c [a] with
         | [] => false
         | _ :: _ => true
         end)
      (data_children mindmapData).
Proof.
  unfold Responsive.availableTabs, Responsive.availableNodes.
  simpl List.length. change (nth 0 [a] EmptyString) with a.
  change ((1 =? 0)%nat) with false. change ((1 =? 1)%nat) with true.
  cbv iota. apply filter_ext. intros c.
  rewrite nonempty_filter. apply existsb_swap.
Qed.

(** X16.  A selected name that is part of no key of the table leaves no
    tab and no leaf: the responsive variant shows no tab, and in both
    variants no category offers a node, so the graph of every category
    is its hub alone. *)
Theorem name_without_key_offers_nothing (a : string) :
  (forall k, In k (JS.keys summaries) ->
             JS.includes a (JS.split comma k) = false) ->
  Responsive.availableTabs summaries [a] = []
  /\ forall data,
       (Responsive.availableNodes summaries data [a] = []
        /\ Fixed.availableNodes summaries data [a] = [])
       /\ (Responsive.nodes summaries data [a] = [data]
           /\ Fixed.nodes summaries data [a] = [data]).
Proof.
  intros Hnone.
  assert (Hf : filter (fun key => JS.includes a (JS.split comma key))
                 (JS.keys summaries) = [])
    by now apply filter_none.
  assert (Hnodes : forall data, Fixed.availableNodes summaries data [a] = []).
  { intros data. unfold Fixed.availableNodes. simpl. now rewrite Hf. }
  split.
  - unfold Responsive.availableTabs. simpl List.length.
    change (nth 0 [a] EmptyString) with a.
    rewrite (filter_ext _ (fun key => JS.includes a (JS.split comma key))
               (fun key => some_is_includes a (JS.split comma key))), Hf.
    reflexivity.
  - intros data. unfold Responsive.nodes, Fixed.nodes.
    now rewrite availableNodes_agree, Hnodes.
Qed.

(** X13.  The links drawn for a category form a star, link by link: the
    link at each position of [links] goes from the hub to the node
    named after the leaf at the same position of [availableNodes].  The
    lookup of the target never fails; it finds the child-less leaf node
    of that name, or the hub itself when the leaf bears the hub's name.
    Both variants. *)
Theorem links_form_star (data : MindMapNode) (selection : list string) :
  links (Responsive.nodes summaries data selection)
    (Responsive.availableNodes summaries data selection)
  = map (fun child =>
           {| source := Some data;
              target := Some (if String.eqb (name data) child then data
                              else mkNode child None) |})
      (Responsive.availableNodes summaries data selection)
  /\ links (Fixed.nodes summaries data selection)
       (Fixed.availableNodes summaries data selection)
     = map (fun child =>
              {| source := Some data;
                 target := Some (if String.eqb (name data) child then data
                                 else mkNode child None) |})
         (Fixed.availableNodes summaries data selection).
Proof.
  split.
  - unfold Responsive.nodes. apply links_star.
  - unfold Fixed.nodes. apply links_star.
Qed.

(** X14.  The responsive variant never pairs a name that holds a comma:
    a click on such a name next to one selected name, or on any name
    next to such a selected name, is rejected, for any table. *)
Theorem comma_name_never_paired (a x sm : string) (tab : nat) :
  a <> x -> has_comma a = true \/ has_comma x = true ->
  Responsive.handleNodeSelect summaries x (mkState [a] sm tab)
  = mkState [a] EmptyString tab.
Proof.
  intros Hax Hcomma.
  rewrite Responsive_select_with, (select_with_one _ _ _ _ _ Hax).
  unfold accept_by_search.
  destruct (find _ _) as [key|] eqn:F; [|reflexivity].
  apply find_some in F as [_ Hboth]. apply andb_prop in Hboth as [Ha Hx].
  apply includes_In, split_pieces in Ha, Hx. unfold has_comma in Hcomma.
  destruct Hcomma; congruence.
Qed.

(** X15.  For two names without commas, splitting the key that the
    fixed-size variant builds gives back the two names, sorted; for two
    distinct such names the key is canonical. *)
Theorem key_splits_into_sorted_names (a b : string) :
  has_comma a = false -> has_comma b = false ->
  JS.split comma (pair_key a b) = JS.sort [a; b]
  /\ (a <> b -> canonical_key (pair_key a b) = true).
Proof.
  intros Ha Hb. unfold has_comma in Ha, Hb.
  assert (Hsplit : JS.split comma (pair_key a b) = JS.sort [a; b]).
  { rewrite pair_key_eq. unfold JS.sort. simpl.
    destruct (String.leb a b);
      now rewrite (split_append comma), !split_whole. }
  split; [exact Hsplit|].
  intros Hab. unfold canonical_key. rewrite Hsplit. unfold JS.sort. simpl.
  destruct (String.leb a b) eqn:E.
  - now apply leb_neq_ltb.
  - now apply not_leb_ltb.
Qed.

Section CanonicalKeys.

Hypothesis canonical : canonical_keys summaries = true.

(** X11.  Over a table of canonical keys, the nodes offered next to one
    selected name [a] are exactly the leaves of the category that have
    an entry with [a].  Both variants. *)
Theorem availableNodes_exactly_partners (data : MindMapNode) (a x : string) :
  (In x (Responsive.availableNodes summaries data [a])
   <-> In x (children_bang data) /\ partner summaries a x = true)
  /\ (In x (Fixed.availableNodes summaries data [a])
      <-> In x (children_bang data) /\ partner summaries a x = true).
Proof.
  rewrite availableNodes_agree.
  assert (H : In x (Fixed.availableNodes summaries data [a])
              <-> In x (children_bang data) /\ partner summaries a x = true).
  { split.
    - intros Hin.
      destruct (availableNodes_partner _ _ _ _ canonical Hin). now split.
    - intros [Hchild Hp].
      rewrite <- (partners_listed summaries a x canonical) in Hp.
      apply includes_In, filter_In in Hp as [Hflat Hne].
      unfold Fixed.availableNodes. simpl. apply filter_In.
      split; [assumption|]. rewrite Hne. now apply includes_In. }
  split; exact H.
Qed.

(** X12.  Over a table of canonical keys (an object holds each key
    once), no name is offered twice next to one selected name; and when
    the hub's name is not one of the category's leaves, no two nodes of
    the graph bear the same name.  Both variants. *)
Theorem availableNodes_offers_once (data : MindMapNode) (a : string) :
  NoDup (JS.keys summaries) ->
  (NoDup (Responsive.availableNodes summaries data [a])
   /\ NoDup (Fixed.availableNodes summaries data [a]))
  /\ (~ In (name data) (children_bang data) ->
      NoDup (map name (Responsive.nodes summaries data [a]))
      /\ NoDup (map name (Fixed.nodes summaries data [a]))).
Proof.
  intros Hnd.
  assert (H : NoDup (Fixed.availableNodes summaries data [a])).
  { unfold Fixed.availableNodes. simpl.
    apply offered_once; try assumption.
    intros i Hkeep ->. now rewrite String.eqb_refl in Hkeep. }
  assert (Hnames : ~ In (name data) (children_bang data) ->
                   NoDup (map name (Fixed.nodes summaries data [a]))).
  { intros Hhub. unfold Fixed.nodes. simpl. rewrite map_map. simpl.
    rewrite map_id. constructor; [|exact H].
    intros Hin. apply Hhub.
    now apply (availableNodes_partner _ _ _ _ canonical) in Hin. }
  unfold Responsive.nodes. rewrite availableNodes_agree.
  split; [split; exact H|].
  intros Hhub. split; now apply Hnames.
Qed.

End CanonicalKeys.

End Rendering.

(** ** The further properties at concrete inputs *)

Lemma double_click_identity_witness :
  (List.length (selectedItems (mkState ["AIOps"] EmptyString 3)) <= 1
   /\ summary (mkState ["AIOps"] EmptyString 3) = EmptyString)
  /\ Fixed.handleNodeSelect example_summaries "ServiceNow"
       (Fixed.handleNodeSelect example_summaries "ServiceNow"
          (mkState ["AIOps"] EmptyString 3))
     = mkState ["AIOps"] EmptyString 3.
Proof.
  split; [split; [simpl; lia | reflexivity]|].
  apply (double_click_identity example_summaries "ServiceNow"
           (mkState ["AIOps"] EmptyString 3)); [simpl; lia | reflexivity].
Defined.

Lemma selection_has_no_duplicates_witness :
  NoDup (selectedItems initialState)
  /\ Forall (fun s => NoDup (selectedItems s))
       (trace (Fixed.handleNodeSelect example_summaries)
          ["AIOps"; "ServiceNow"; "AIOps"; "AIOps"] initialState).
Proof.
  split; [constructor|].
  apply (selection_has_no_duplicates example_summaries
           ["AIOps"; "ServiceNow"; "AIOps"; "AIOps"] initialState).
  constructor.
Defined.

Lemma click_on_pair_blanks_summary_witness :
  List.length (selectedItems (mkState ["AIOps"; "ServiceNow"] "text" 0)) = 2
  /\ summary
       (Responsive.handleNodeSelect example_summaries "BMC"
          (mkState ["AIOps"; "ServiceNow"] "text" 0)) = EmptyString.
Proof.
  split; [reflexivity|].
  apply (click_on_pair_blanks_summary example_summaries "BMC"
           (mkState ["AIOps"; "ServiceNow"] "text" 0)).
  reflexivity.
Defined.

Lemma click_on_selected_removes_it_witness :
  (List.length (selectedItems (mkState ["AIOps"; "ServiceNow"] "text" 0)) <= 2
   /\ In "AIOps" (selectedItems (mkState ["AIOps"; "ServiceNow"] "text" 0)))
  /\ ~ In "AIOps"
         (selectedItems
            (Fixed.handleNodeSelect example_summaries "AIOps"
               (mkState ["AIOps"; "ServiceNow"] "text" 0))).
Proof.
  split; [split; [simpl; lia | left; reflexivity]|].
  apply (click_on_selected_removes_it example_summaries "AIOps"
           (mkState ["AIOps"; "ServiceNow"] "text" 0));
    [simpl; lia | left; reflexivity].
Defined.

Lemma pair_selected_has_entry_witness :
  selectedItems
    (runEvents (Fixed.handleNodeSelect example_summaries) Fixed.handleReset
       [SelectItem "ServiceNow"; SelectItem "AIOps"] initialState)
  = ["ServiceNow"; "AIOps"]
  /\ JS.get example_summaries (pair_key "ServiceNow" "AIOps")
     = Some
         (summary
            (runEvents (Fixed.handleNodeSelect example_summaries)
               Fixed.handleReset
               [SelectItem "ServiceNow"; SelectItem "AIOps"] initialState)).
Proof.
  split; [reflexivity|].
  apply (pair_selected_has_entry example_summaries
           [SelectItem "ServiceNow"; SelectItem "AIOps"]
           "ServiceNow" "AIOps").
  reflexivity.
Defined.

Lemma drawn_circle_never_selected_colour_witness :
  (children keyPlayers
   = Some ["ServiceNow"; "BMC"; "IBM"; "Splunk"; "Datadog"; "Dynatrace";
           "New Relic"; "Microsoft"]
   /\ In (mkNode "ServiceNow" None)
        (Responsive.nodes example_summaries keyPlayers ["AIOps"]))
  /\ circleFill ["AIOps"] (mkNode "ServiceNow" None) = "#3498db".
Proof.
  split; [split; [reflexivity | right; left; reflexivity]|].
  apply (drawn_circle_never_selected_colour example_summaries keyPlayers
           ["ServiceNow"; "BMC"; "IBM"; "Splunk"; "Datadog"; "Dynatrace";
            "New Relic"; "Microsoft"]
           ["AIOps"] (mkNode "ServiceNow" None));
    [reflexivity | left; right; left; reflexivity].
Defined.

Lemma name_without_key_offers_nothing_witness :
  (forall k, In k (JS.keys example_summaries) ->
             JS.includes "BMC" (JS.split comma k) = false)
  /\ Responsive.availableTabs example_summaries ["BMC"] = []
  /\ Fixed.nodes example_summaries technologies ["BMC"] = [technologies].
Proof.
  assert (H : forall k, In k (JS.keys example_summaries) ->
                        JS.includes "BMC" (JS.split comma k) = false).
  { intros k Hin. simpl in Hin.
    destruct Hin as [<-|[<-|[<-|[]]]]; reflexivity. }
  split; [exact H|]. split.
  - apply (name_without_key_offers_nothing example_summaries "BMC" H).
  - apply (name_without_key_offers_nothing example_summaries "BMC" H).
Defined.

Lemma comma_name_never_paired_witness :
  ("AIOps" <> "Service,Now"
   /\ (has_comma "AIOps" = true \/ has_comma "Service,Now" = true))
  /\ Responsive.handleNodeSelect [("AIOps,Service,Now", "text")]
       "Service,Now" (mkState ["AIOps"] EmptyString 0)
     = mkState ["AIOps"] EmptyString 0.
Proof.
  split; [split; [discriminate | right; reflexivity]|].
  apply (comma_name_never_paired [("AIOps,Service,Now", "text")]
           "AIOps" "Service,Now" EmptyString 0);
    [discriminate | right; reflexivity].
Defined.

Lemma key_splits_into_sorted_names_witness :
  (has_comma "ServiceNow" = false /\ has_comma "AIOps" = false)
  /\ JS.split comma (pair_key "ServiceNow" "AIOps")
     = JS.sort ["ServiceNow"; "AIOps"].
Proof.
  split; [split; reflexivity|].
  apply (key_splits_into_sorted_names "ServiceNow" "AIOps"); reflexivity.
Defined.

Lemma availableNodes_exactly_partners_witness :
  (canonical_keys example_summaries = true
   /\ In "ServiceNow" (children_bang keyPlayers)
   /\ partner example_summaries "AIOps" "ServiceNow" = true)
  /\ In "ServiceNow"
       (Responsive.availableNodes example_summaries keyPlayers ["AIOps"]).
Proof.
  split; [split; [reflexivity | split; [left; reflexivity | reflexivity]]|].
  apply (availableNodes_exactly_partners example_summaries eq_refl keyPlayers
           "AIOps" "ServiceNow").
  split; [left; reflexivity | reflexivity].
Defined.

Lemma availableNodes_offers_once_witness :
  (canonical_keys example_summaries = true
   /\ NoDup (JS.keys example_summaries)
   /\ ~ In (name keyPlayers) (children_bang keyPlayers))
  /\ NoDup (Fixed.availableNodes example_summaries keyPlayers ["AIOps"])
  /\ NoDup (map name (Fixed.nodes example_summaries keyPlayers ["AIOps"])).
Proof.
  assert (H : NoDup (JS.keys example_summaries)).
  { simpl. repeat constructor; simpl; intuition discriminate. }
  assert (Hhub : ~ In (name keyPlayers) (children_bang keyPlayers)).
  { simpl. intuition discriminate. }
  split; [split; [reflexivity | split; [exact H | exact Hhub]]|].
  split.
  - apply (availableNodes_offers_once example_summaries eq_refl keyPlayers
             "AIOps" H).
  - apply (availableNodes_offers_once example_summaries eq_refl keyPlayers
             "AIOps" H); exact Hhub.
Defined.

(** ** Only clicked names are selected *)

Lemma select_with_origin (accept : string -> string -> option string)
  (x y : string) (st : AppState) :
  In y (selectedItems (select_with accept x st)) ->
  y = x \/ In y (selectedItems st).
Proof.
  destruct st as [prev sm tab]. unfold select_with. simpl.
  destruct (JS.includes x prev); simpl.
  - rewrite filter_In. tauto.
  - destruct prev as [|a [|b rest]]; simpl; try tauto.
    + intuition congruence.
    + destruct (accept a x); simpl; intuition congruence.
    + intuition congruence.
Qed.

Lemma run_origin (accept : string -> string -> option string)
  (items : list string) (y : string) (st : AppState) :
  In y (selectedItems (run (select_with accept) items st)) ->
  In y items \/ In y (selectedItems st).
Proof.
  unfold run. revert st.
  induction items as [|item rest IH]; intros st; simpl; [tauto|].
  intros Hin. apply IH in Hin as [Hin|Hin]; [tauto|].
  apply select_with_origin in Hin. intuition congruence.
Qed.

Lemma run_ext (f g : string -> AppState -> AppState) :
  (forall item st, f item st = g item st) ->
  forall items st, run f items st = run g items st.
Proof.
  intros Hfg items. unfold run.
  induction items as [|item rest IH]; intros st; simpl; [reflexivity|].
  now rewrite Hfg, IH.
Qed.

(** X17.  Every name selected after a sequence of [selectItem] calls was
    either selected at the start or is the argument of one of the
    calls.  Both variants. *)
Theorem selected_names_were_clicked (summaries : JS.object)
  (items : list string) (y : string) (st : AppState) :
  (In y (selectedItems (run (Responsive.handleNodeSelect summaries) items st))
   -> In y items \/ In y (selectedItems st))
  /\ (In y (selectedItems (run (Fixed.handleNodeSelect summaries) items st))
      -> In y items \/ In y (selectedItems st)).
Proof.
  split.
  - rewrite (run_ext _ _ (Responsive_select_with summaries)).
    apply run_origin.
  - rewrite (run_ext _ _ (Fixed_select_with summaries)).
    apply run_origin.
Qed.

Lemma selected_names_were_clicked_witness :
  In "ServiceNow"
    (selectedItems
       (run (Fixed.handleNodeSelect example_summaries)
          ["AIOps"; "ServiceNow"] initialState))
  /\ (In "ServiceNow" ["AIOps"; "ServiceNow"]
      \/ In "ServiceNow" (selectedItems initialState)).
Proof.
  split; [right; left; reflexivity|].
  apply (selected_names_were_clicked example_summaries
           ["AIOps"; "ServiceNow"] "ServiceNow" initialState).
  right; left; reflexivity.
Defined.
